(** * The meme recommendation bot (main.py): context buffer, mood analysis,
      GIF selection and the manual command, as a shallow embedding.

    Conventions of the embedding.
    - Python [str] values are [string]s, the bytes of their UTF-8 encoding.
      [PyStr.lower] is the ASCII case mapping (letters A-Z), which is what
      [str.lower] does on ASCII text; the statements about every message
      take [str.lower] itself as a parameter.
    - A Python exception is a value of [exn]; a call that may raise returns
      a [result].  Every exception of the model derives from Python's
      [Exception], which is what the program's handlers catch.
    - [random.choice] draws from an explicit stream of numbers.
    - The replies of the reasoning service and of the media search service,
      the JSON decoder and the clock are inputs of the functions. *)

From Stdlib Require Import ZArith List Ascii String Bool Lia.
From Stdlib Require Import Floats.SpecFloat.
From stdpp Require Import gmap strings list.

Open Scope string_scope.
Open Scope Z_scope.

(** ** Python string operations *)

Module PyStr.

(** [c.lower()] for one ASCII character. *)
Definition lower_char (c : ascii) : ascii :=
  let n := nat_of_ascii c in
  if ((65 <=? n) && (n <=? 90))%nat then ascii_of_nat (n + 32) else c.

(** [s.lower()] *)
Fixpoint lower (s : string) : string :=
  match s with
  | EmptyString => EmptyString
  | String c s' => String (lower_char c) (lower s')
  end.

(** [sep.join(parts)] *)
Fixpoint join (sep : string) (parts : list string) : string :=
  match parts with
  | [] => ""
  | [p] => p
  | p :: rest => p ++ sep ++ join sep rest
  end.

(** [t.startswith(w)] *)
Fixpoint startswith (w t : string) : bool :=
  match w, t with
  | EmptyString, _ => true
  | String _ _, EmptyString => false
  | String a w', String b t' => Ascii.eqb a b && startswith w' t'
  end.

(** [w in t]: [w] occurs in [t] as a contiguous run of characters. *)
Fixpoint contains (w t : string) : bool :=
  startswith w t
  || match t with
     | EmptyString => false
     | String _ t' => contains w t'
     end.

(** [t.find(w)]: index of the first occurrence, [-1] when there is none. *)
Fixpoint find (w t : string) : Z :=
  if startswith w t then 0
  else match t with
       | EmptyString => -1
       | String _ t' =>
           let r := find w t' in if r <? 0 then -1 else 1 + r
       end.

(** [t.rfind(w)]: index of the last occurrence, [-1] when there is none. *)
Fixpoint rfind (w t : string) : Z :=
  match t with
  | EmptyString => if startswith w t then 0 else -1
  | String _ t' =>
      let r := rfind w t' in
      if 0 <=? r then 1 + r
      else if startswith w t then 0 else -1
  end.

(** Bounds of a slice [t[i:j]]: a negative index counts from the end, and
    the result is clamped to [0, len(t)]. *)
Definition clamp (len i : Z) : Z :=
  if i <? 0 then Z.max 0 (len + i) else Z.min i len.

Fixpoint drop (n : nat) (s : string) : string :=
  match n, s with
  | O, _ => s
  | S _, EmptyString => EmptyString
  | S n', String _ s' => drop n' s'
  end.

Fixpoint take (n : nat) (s : string) : string :=
  match n, s with
  | O, _ => EmptyString
  | S _, EmptyString => EmptyString
  | S n', String c s' => String c (take n' s')
  end.

(** [t[i:j]] *)
Definition slice (t : string) (i j : Z) : string :=
  let len := Z.of_nat (String.length t) in
  let lo := clamp len i in
  let hi := clamp len j in
  take (Z.to_nat (hi - lo)) (drop (Z.to_nat lo) t).

(** The propositional reading of [w in t]. *)
Definition occurs_in (w t : string) : Prop :=
  exists pre post : string, t = pre ++ w ++ post.

End PyStr.

(** ** Python values decoded from JSON *)

(** A JSON number is decoded to an [int] or to a [float]. *)
Inductive number : Type :=
| NInt (z : Z)
| NFloat (f : spec_float).

(** A dict keeps its keys in insertion order; the keys of a dict are
    pairwise distinct, and a lookup takes the binding of the key. *)
#[warnings="-register-all"]
Inductive json : Type :=
| JNull
| JBool (b : bool)
| JNum (n : number)
| JStr (s : string)
| JArr (items : list json)
| JObj (fields : list (string * json)).

(** ** Exceptions and effects *)

(** The exceptions the program can meet.  [ServiceError] stands for any
    exception raised inside a collaborator (a network failure, a rejected
    request, a reply that cannot be decoded). *)
Inductive exn : Type :=
| AttributeError
| TypeError
| KeyError
| IndexError
| ValueError (msg : string)
| ServiceError (what : string).

Inductive result (A : Type) : Type :=
| Ret (a : A)
| Raise (e : exn).
Arguments Ret {A} a.
Arguments Raise {A} e.

(** A record of [logging.error]: the text before the exception and the
    exception that is formatted into the message. *)
Record log_record : Type := LogError { log_text : string; log_exn : exn }.

(** What a command or the automatic path sends to the channel. *)
Record embed : Type := Embed {
  embed_title : string;
  embed_description : string;
  embed_color : Z;
  embed_image : json;
  embed_footer : string
}.

Inductive outmsg : Type :=
| SendEmbed (e : embed)
| SendText (text : string).

(** The part of the process state the recommender acts on: the stream of
    draws left in the random generator, the log and the messages sent. *)
Record world : Type := World {
  rng : nat -> nat;
  log : list log_record;
  sent : list outmsg
}.

(** A computation that reads and writes the [world] and returns or raises. *)
Definition M (A : Type) : Type := world -> result A * world.

Definition ret {A} (a : A) : M A := fun w => (Ret a, w).
Definition raise {A} (e : exn) : M A := fun w => (Raise e, w).

Definition bind {A B} (m : M A) (k : A -> M B) : M B :=
  fun w =>
    match m w with
    | (Ret a, w') => k a w'
    | (Raise e, w') => (Raise e, w')
    end.

(** [try: m  except Exception as e: h e] *)
Definition try_except {A} (m : M A) (h : exn -> M A) : M A :=
  fun w =>
    match m w with
    | (Ret a, w') => (Ret a, w')
    | (Raise e, w') => h e w'
    end.

(** A pure step that may raise. *)
Definition lift {A} (r : result A) : M A := fun w => (r, w).

#[global] Instance M_ret : MRet M := @ret.
#[global] Instance M_bind : MBind M := fun A B k m => bind m k.

(** [logging.error(f"<text>: {e}")] *)
Definition logging_error (text : string) (e : exn) : M unit :=
  fun w => (Ret tt, World (rng w) (log w ++ [LogError text e]) (sent w)).

(** [await ctx.send(...)] *)
Definition send (m : outmsg) : M unit :=
  fun w => (Ret tt, World (rng w) (log w) (sent w ++ [m])).

(** The generator's next draw below [n] (for [n > 0]). *)
Definition randbelow (n : nat) : M nat :=
  fun w => (Ret (rng w 0%nat mod n)%nat,
            World (fun i => rng w (S i)) (log w) (sent w)).

(** [random.choice(seq)] on a list: [IndexError] on the empty list. *)
Definition random_choice {A} (seq : list A) : M A :=
  match seq with
  | [] => raise IndexError
  | x :: _ =>
      i ← randbelow (length seq);
      ret (nth i seq x)
  end.

(** ** Operations on decoded values *)

Module Py.

(** [bool(v)] *)
Definition truthy (v : json) : bool :=
  match v with
  | JNull => false
  | JBool b => b
  | JNum (NInt z) => negb (z =? 0)
  | JNum (NFloat (S754_zero _)) => false
  | JNum (NFloat _) => true
  | JStr s => negb (String.eqb s "")
  | JArr items => match items with [] => false | _ => true end
  | JObj fields => match fields with [] => false | _ => true end
  end.

(** The binding of a key in a dict. *)
Fixpoint lookup (k : string) (fields : list (string * json)) : option json :=
  match fields with
  | [] => None
  | (k', v) :: rest => if String.eqb k k' then Some v else lookup k rest
  end.

(** [v.get(k, default)]: only a dict has the method. *)
Definition get (v : json) (k : string) (default : json) : result json :=
  match v with
  | JObj fields =>
      Ret (match lookup k fields with Some x => x | None => default end)
  | _ => Raise AttributeError
  end.

(** [v[k]] for a string key. *)
Definition getitem (v : json) (k : string) : result json :=
  match v with
  | JObj fields =>
      match lookup k fields with Some x => Ret x | None => Raise KeyError end
  | _ => Raise TypeError
  end.

(** [len(v)] *)
Definition len (v : json) : result Z :=
  match v with
  | JStr s => Ret (Z.of_nat (String.length s))
  | JArr items => Ret (Z.of_nat (length items))
  | JObj fields => Ret (Z.of_nat (length fields))
  | _ => Raise TypeError
  end.

(** [random.choice(v)]: [len(v)], then [v[i]] for the drawn index [i].
    An integer is not a key of a decoded dict. *)
Definition choice (v : json) : M json :=
  match v with
  | JArr items => random_choice items
  | JStr s =>
      match s with
      | EmptyString => raise IndexError
      | String c _ =>
          i ← randbelow (String.length s);
          ret (JStr (match String.get i s with
                     | Some d => String d ""
                     | None => String c ""
                     end))
      end
  | JObj fields =>
      match fields with
      | [] => raise IndexError
      | _ => randbelow (length fields) ≫= λ _, raise KeyError
      end
  | _ => raise TypeError
  end.

Definition is_upper (c : ascii) : bool :=
  let n := nat_of_ascii c in ((65 <=? n) && (n <=? 90))%nat.
Definition is_lower (c : ascii) : bool :=
  let n := nat_of_ascii c in ((97 <=? n) && (n <=? 122))%nat.
Definition upper_char (c : ascii) : ascii :=
  if is_lower c then ascii_of_nat (nat_of_ascii c - 32) else c.

(** [s.title()]: a letter that follows a letter is lower-cased, any other
    letter is upper-cased. *)
Fixpoint title_from (prev_cased : bool) (s : string) : string :=
  match s with
  | EmptyString => EmptyString
  | String c s' =>
      if is_upper c || is_lower c
      then String (if prev_cased then PyStr.lower_char c else upper_char c)
                  (title_from true s')
      else String c (title_from false s')
  end.

(** [v.title()]: only a string has the method. *)
Definition title (v : json) : result string :=
  match v with
  | JStr s => Ret (title_from false s)
  | _ => Raise AttributeError
  end.

(** [l[-n:]] for [n > 0]: the last [n] items, all of them when there are
    fewer. *)
Definition last_n {A} (n : nat) (l : list A) : list A :=
  drop (length l - n) l.

End Py.

(** ** The process environment and the collaborators *)

(** What [session.get(url, params=...)] and [response.json()] give. *)
Inductive http_reply : Type :=
| HttpError (e : exn)
| HttpResponse (status : Z) (body : result json).

(** The optional credentials read at start-up, and the collaborators:
    [json.loads], the reasoning service ([generate_content_async] followed
    by [response.text]), the media search service, and [str()] on a value
    that is formatted into a message. *)
Record Env : Type := {
  GEMINI_API_KEY : option string;
  TENOR_API_KEY : option string;
  json_loads : string -> result json;
  generate_content : string -> result string;
  session_get : string -> list (string * json) -> http_reply;
  py_str : json -> string
}.

(** Truth value of a credential: unset and empty both count as absent. *)
Definition key_set (k : option string) : bool :=
  match k with
  | Some s => negb (String.eqb s "")
  | None => false
  end.

Definition nl : string := String (ascii_of_nat 10) "".
Definition dq : string := String (ascii_of_nat 34) "".

(** A value inside an f-string: a string as it is, anything else through
    [str()]. *)
Definition fmt (env : Env) (v : json) : string :=
  match v with
  | JStr s => s
  | _ => py_str env v
  end.

(** ** MemeRecommender *)

Record MemeRecommender : Type := {
  tenor_base_url : string;
  fallback_gifs : list string
}.

(** [MemeRecommender.__init__] *)
Definition MemeRecommender_init : MemeRecommender := {|
  tenor_base_url := "https://tenor.googleapis.com/v2/search";
  fallback_gifs := [ "https://media.tenor.com/example1.gif";
                     "https://media.tenor.com/example2.gif";
                     "https://media.tenor.com/example3.gif" ]
|}.

Definition roast_words : list string := ["roast"; "burn"; "savage"; "rekt"].
Definition celebration_words : list string :=
  ["celebration"; "victory"; "win"; "congrats"].
Definition chaos_words : list string := ["chaos"; "madness"; "wtf"; "confused"].

(** [any(word in text for word in words)] *)
Definition any_word_in (words : list string) (text : string) : bool :=
  existsb (fun word => PyStr.contains word text) words.

(** The dict literal of an analysis. *)
Definition analysis_dict (mood search_query confidence : string) : json :=
  JObj [ ("mood", JStr mood);
         ("search_query", JStr search_query);
         ("confidence", JStr confidence) ].

Definition roast_analysis : json :=
  analysis_dict "roast" "savage burn gif" "low".
Definition celebration_analysis : json :=
  analysis_dict "celebration" "celebration victory gif" "low".
Definition chaos_analysis : json :=
  analysis_dict "chaos" "confused chaos gif" "low".
Definition neutral_analysis : json :=
  analysis_dict "neutral" "reaction gif" "low".

(** [MemeRecommender._fallback_analysis] *)
Definition _fallback_analysis (messages : list string) : json :=
  let text := PyStr.lower (PyStr.join " " messages) in
  if any_word_in roast_words text then roast_analysis
  else if any_word_in celebration_words text then celebration_analysis
  else if any_word_in chaos_words text then chaos_analysis
  else neutral_analysis.

(** The prompt of [_analyze_with_gemini]. *)
Definition gemini_prompt (conversation_text : string) : string :=
  let pad := "            " in
  nl ++ pad
  ++ "Analyze this conversation and determine the mood and appropriate GIF search terms."
  ++ nl ++ pad ++ "Conversation: " ++ conversation_text
  ++ nl ++ pad
  ++ nl ++ pad ++ "Return JSON: {" ++ dq ++ "mood" ++ dq ++ ": " ++ dq ++ "mood" ++ dq
  ++ ", " ++ dq ++ "search_query" ++ dq ++ ": " ++ dq ++ "search terms" ++ dq
  ++ ", " ++ dq ++ "confidence" ++ dq ++ ": " ++ dq ++ "level" ++ dq ++ "}"
  ++ nl ++ pad.

(** The text handed to [json.loads] (main.py, "Extract JSON from response"):
    from the first opening brace to the last closing brace, or [ValueError]
    when the reply lacks one of the two characters. *)
Definition extract_json_str (result_text : string) : result string :=
  if PyStr.contains "{" result_text && PyStr.contains "}" result_text then
    let start := PyStr.find "{" result_text in
    let end_ := PyStr.rfind "}" result_text + 1 in
    Ret (PyStr.slice result_text start end_)
  else Raise (ValueError "Invalid response format").

(** [MemeRecommender._analyze_with_gemini] *)
Definition _analyze_with_gemini (env : Env) (messages : list string) : M json :=
  try_except
    (let conversation_text := PyStr.join nl (Py.last_n 5 messages) in
     let prompt := gemini_prompt conversation_text in
     result_text ← lift (generate_content env prompt);
     json_str ← lift (extract_json_str result_text);
     lift (json_loads env json_str))
    (fun e => _ ← logging_error "Gemini analysis failed" e; raise e).

(** [MemeRecommender.analyze_conversation_mood] *)
Definition analyze_conversation_mood (env : Env) (messages : list string)
  : M json :=
  try_except
    (if key_set (GEMINI_API_KEY env)
     then _analyze_with_gemini env messages
     else ret (_fallback_analysis messages))
    (fun e => _ ← logging_error "Error analyzing conversation" e;
              ret (_fallback_analysis messages)).

(** [random.choice(self.fallback_gifs)] *)
Definition choose_fallback (self : MemeRecommender) : M json :=
  url ← random_choice (fallback_gifs self);
  ret (JStr url).

(** The body of the [if response.status == 200] block of
    [get_recommended_gif]: [Some v] when it returns [v], [None] when control
    falls through to the statement after the request. *)
Definition gif_from_response (status : Z) (body : result json)
  : M (option json) :=
  if status =? 200 then
    data ← lift body;
    results ← lift (Py.get data "results" JNull);
    nonempty ← (if Py.truthy results
                then r ← lift (Py.getitem data "results");
                     n ← lift (Py.len r);
                     ret (0 <? n)
                else ret false);
    if (nonempty : bool) then
      r ← lift (Py.getitem data "results");
      gif ← Py.choice r;
      media_formats ← lift (Py.get gif "media_formats" (JObj []));
      gif_format ← lift (Py.get media_formats "gif" (JObj []));
      url ← lift (Py.get gif_format "url" JNull);
      ret (Some url)
    else ret None
  else ret None.

(** The query parameters of the media search request. *)
Definition tenor_params (search_query : json) (key : string)
  : list (string * json) :=
  [ ("q", search_query);
    ("key", JStr key);
    ("limit", JNum (NInt 10));
    ("media_filter", JStr "gif") ].

(** [MemeRecommender.get_recommended_gif] *)
Definition get_recommended_gif (env : Env) (self : MemeRecommender)
    (search_query : json) : M json :=
  try_except
    (match TENOR_API_KEY env with
     | Some key =>
         if String.eqb key "" then choose_fallback self
         else
           let params := tenor_params search_query key in
           match session_get env (tenor_base_url self) params with
           | HttpError e => raise e
           | HttpResponse status body =>
               returned ← gif_from_response status body;
               match returned with
               | Some v => ret v
               | None => choose_fallback self
               end
           end
     | None => choose_fallback self
     end)
    (fun e => _ ← logging_error "Error fetching GIF" e; choose_fallback self).

(** ** The conversation contexts *)

(** One buffered message: the dict with keys author, content, timestamp. *)
Record Message : Type := {
  author : string;
  content : string;
  timestamp : spec_float
}.

(** [conversation_contexts]: channel id to recent messages.  The program
    starts with the empty dict. *)
Abbreviation contexts := (gmap Z (list Message)).

Definition MAX_CONTEXT_MESSAGES : nat := 10.

(** [update_conversation_context]; [now] is the reading of the event loop's
    clock. *)
Definition update_conversation_context (channel_id : Z)
    (author content : string) (now : spec_float)
    (conversation_contexts : contexts) : contexts :=
  let created :=
    match conversation_contexts !! channel_id with
    | None => <[channel_id := []]> conversation_contexts
    | Some _ => conversation_contexts
    end in
  let appended :=
    alter (fun buf => (buf ++ [ {| author := author;
                                   content := content;
                                   timestamp := now |} ])%list)
          channel_id created in
  match appended !! channel_id with
  | Some buf =>
      if (MAX_CONTEXT_MESSAGES <? length buf)%nat
      then <[channel_id := Py.last_n MAX_CONTEXT_MESSAGES buf]> appended
      else appended
  | None => appended
  end.

(** The read every consumer performs: a membership test, then the last [n]
    messages ([conversation_contexts[channel_id][-n:]]); a channel without
    an entry has no recent messages. *)
Definition recent (conversation_contexts : contexts) (channel_id : Z)
    (n : nat) : list Message :=
  match conversation_contexts !! channel_id with
  | Some buf => Py.last_n n buf
  | None => []
  end.

(** ** The commands

    The pictograph that opens each notice and title is left out of the
    texts. *)

Definition notice_cleared : string := "Conversation context cleared!".
Definition notice_nothing_to_clear : string := "No context to clear.".
Definition notice_no_context : string :=
  "No recent conversation context available.".
Definition notice_no_meme : string :=
  "Sorry, couldn't find a suitable meme right now!".
Definition notice_failed : string :=
  "Something went wrong with the meme recommendation!".

(** [clear_context]: the dict after the command. *)
Definition clear_context (channel_id : Z) (conversation_contexts : contexts)
  : M contexts :=
  match conversation_contexts !! channel_id with
  | Some _ =>
      _ ← send (SendText notice_cleared);
      ret (delete channel_id conversation_contexts)
  | None =>
      _ ← send (SendText notice_nothing_to_clear);
      ret conversation_contexts
  end.

(** [show_context] *)
Definition show_context (channel_id : Z) (conversation_contexts : contexts)
  : M unit :=
  match conversation_contexts !! channel_id with
  | Some (m :: buf) =>
      let recent_messages := Py.last_n 5 (m :: buf) in
      let context_text :=
        PyStr.join nl
          (map (fun msg => "**" ++ author msg ++ ":** " ++ content msg)
               recent_messages) in
      send (SendEmbed (Embed "Recent Conversation Context" context_text
                             0x3498db JNull ""))
  | _ => send (SendText notice_no_context)
  end.

(** The fixed analysis of the manual command. *)
Definition manual_analysis : json :=
  analysis_dict "random" "funny reaction gif" "manual".

Section Recommend.

(** The analyser the command calls: [meme_recommender.analyze_conversation_mood]. *)
Variable analyze : list string -> M json.
Variable env : Env.
Variable self : MemeRecommender.

(** The first statement of [recommend_meme]: the analysis the command
    uses.  [context] is the text after the command name, if any. *)
Definition recommend_meme_analysis (channel_id : Z)
    (context : option string) (conversation_contexts : contexts)
  : M json :=
  let from_buffer :=
    match conversation_contexts !! channel_id with
    | Some buf =>
        let recent_messages := map content (Py.last_n 5 buf) in
        analyze recent_messages
    | None => ret manual_analysis
    end in
  match context with
  | Some text => if String.eqb text "" then from_buffer else analyze [text]
  | None => from_buffer
  end.

(** [recommend_meme] with an arbitrary analyser. *)
Definition recommend_meme_with (channel_id : Z) (display_name : string)
    (context : option string) (conversation_contexts : contexts)
  : M unit :=
  try_except
    (analysis ← recommend_meme_analysis channel_id context
                                        conversation_contexts;
     search_query ← lift (Py.getitem analysis "search_query");
     gif_url ← get_recommended_gif env self search_query;
     if Py.truthy gif_url then
       mood ← lift (Py.getitem analysis "mood");
       mood_title ← lift (Py.title mood);
       search_query' ← lift (Py.getitem analysis "search_query");
       confidence ← lift (Py.getitem analysis "confidence");
       send (SendEmbed
               (Embed "Meme Recommendation"
                      ("**Mood:** " ++ mood_title ++ nl
                       ++ "**Search:** " ++ fmt env search_query')
                      0xff6b6b
                      gif_url
                      ("Confidence: " ++ fmt env confidence
                       ++ " | Requested by " ++ display_name)))
     else send (SendText notice_no_meme))
    (fun e => _ ← logging_error "Meme recommendation failed" e;
              send (SendText notice_failed)).

End Recommend.

(** [recommend_meme]: the command, on the module's recommender. *)
Definition recommend_meme (env : Env) (channel_id : Z) (display_name : string)
    (context : option string) (conversation_contexts : contexts) : M unit :=
  recommend_meme_with (analyze_conversation_mood env) env MemeRecommender_init
                      channel_id display_name context conversation_contexts.

(** ** Readings of the specification used in the statements *)

(** Some keyword of [words] occurs in [text]. *)
Definition hits (words : list string) (text : string) : Prop :=
  exists w, In w words /\ PyStr.occurs_in w text.

(** The specification's MoodAnalysis: a mood and a search query that are
    strings, and a confidence out of high, medium, low, manual, random. *)
Definition is_mood_analysis (v : json) : bool :=
  match v with
  | JObj fields =>
      match Py.lookup "mood" fields,
            Py.lookup "search_query" fields,
            Py.lookup "confidence" fields with
      | Some (JStr _), Some (JStr _), Some (JStr c) =>
          existsb (String.eqb c) ["high"; "medium"; "low"; "manual"; "random"]
      | _, _, _ => false
      end
  | _ => false
  end.

(** The specification's GifResult when a candidate was found: a URL string
    that is not empty. *)
Definition is_url_string (v : json) : bool :=
  match v with
  | JStr s => negb (String.eqb s "")
  | _ => false
  end.

(** The specification's extraction rule, read literally: the first
    brace-balanced substring.  [closing depth s] is the text of [s] up to
    the brace that closes the [depth]-th brace still open. *)
Fixpoint closing (depth : nat) (s : string) : option string :=
  match s with
  | EmptyString => None
  | String c s' =>
      if Ascii.eqb c "{" then option_map (String c) (closing (S depth) s')
      else if Ascii.eqb c "}" then
        match depth with
        | O => Some (String c "")
        | S d => option_map (String c) (closing d s')
        end
      else option_map (String c) (closing depth s')
  end.

Fixpoint spec_first_balanced (s : string) : option string :=
  match s with
  | EmptyString => None
  | String c s' =>
      if Ascii.eqb c "{" then
        match closing 0 s' with
        | Some r => Some (String c r)
        | None => spec_first_balanced s'
        end
      else spec_first_balanced s'
  end.

(** The url entry the program reads off a search result:
    [gif.get('media_formats', {}).get('gif', {}).get('url')]. *)
Definition url_of (gif : json) : result json :=
  match Py.get gif "media_formats" (JObj []) with
  | Ret media_formats =>
      match Py.get media_formats "gif" (JObj []) with
      | Ret gif_format => Py.get gif_format "url" JNull
      | Raise e => Raise e
      end
  | Raise e => Raise e
  end.

(** Replaying a list of record operations (channel, author, content, clock)
    from a given dict, oldest first. *)
Definition record_op : Type := Z * string * string * spec_float.

Definition op_channel (op : record_op) : Z := op.1.1.1.
Definition op_message (op : record_op) : Message :=
  {| author := op.1.1.2; content := op.1.2; timestamp := op.2 |}.

Definition record (op : record_op) (ctxs : contexts) : contexts :=
  update_conversation_context op.1.1.1 op.1.1.2 op.1.2 op.2 ctxs.

Definition replay (ops : list record_op) (ctxs : contexts) : contexts :=
  fold_left (fun acc op => record op acc) ops ctxs.

(** The messages recorded for one channel, oldest first. *)
Definition recorded_on (channel_id : Z) (ops : list record_op) : list Message :=
  map op_message (filter (fun op => op_channel op = channel_id) ops).

(** A world to run examples in: every draw is [0]. *)
Definition world0 : world := World (fun _ => 0%nat) [] [].

(** The world after one more [logging.error]. *)
Definition logged (w : world) (text : string) (e : exn) : world :=
  World (rng w) (log w ++ [LogError text e]) (sent w).

(** The world after one draw of the random generator. *)
Definition drawn (w : world) : world :=
  World (fun i => rng w (S i)) (log w) (sent w).

(** ** Environments for the examples *)

(** A decoder that knows one text, the empty object. *)
Definition loads_empty_object (s : string) : result json :=
  if String.eqb s "{}" then Ret (JObj [])
  else Raise (ValueError "not decodable").

(** No credential at all, and collaborators that fail if they are called. *)
Definition env_no_credentials : Env := {|
  GEMINI_API_KEY := None;
  TENOR_API_KEY := None;
  json_loads := loads_empty_object;
  generate_content := fun _ => Raise (ServiceError "reasoning service");
  session_get := fun _ _ => HttpError (ServiceError "media search");
  py_str := fun _ => "?"
|}.

(** A reasoning service that answers with the empty object. *)
Definition env_empty_object_reply : Env := {|
  GEMINI_API_KEY := Some "g-key";
  TENOR_API_KEY := None;
  json_loads := loads_empty_object;
  generate_content := fun _ => Ret "{}";
  session_get := fun _ _ => HttpError (ServiceError "media search");
  py_str := fun _ => "?"
|}.

(** A reasoning service that raises in the middle of the request. *)
Definition env_service_raises : Env := {|
  GEMINI_API_KEY := Some "g-key";
  TENOR_API_KEY := None;
  json_loads := loads_empty_object;
  generate_content := fun _ => Raise (ServiceError "reasoning service");
  session_get := fun _ _ => HttpError (ServiceError "media search");
  py_str := fun _ => "?"
|}.

(** A media search that answers 200 with [body]. *)
Definition env_search_reply (body : json) : Env := {|
  GEMINI_API_KEY := None;
  TENOR_API_KEY := Some "t-key";
  json_loads := loads_empty_object;
  generate_content := fun _ => Raise (ServiceError "reasoning service");
  session_get := fun _ _ => HttpResponse 200 (Ret body);
  py_str := fun _ => "?"
|}.

(** ** The automatic path and the message handler *)

(** [auto_recommend_meme], on the module's recommender; [channel_id] is
    [message.channel.id]. *)
Definition auto_recommend_meme (env : Env) (channel_id : Z)
    (conversation_contexts : contexts) : M unit :=
  try_except
    (match conversation_contexts !! channel_id with
     | None => ret tt
     | Some buf =>
         let recent_messages := map content (Py.last_n 5 buf) in
         analysis ← analyze_conversation_mood env recent_messages;
         search_query ← lift (Py.getitem analysis "search_query");
         gif_url ← get_recommended_gif env MemeRecommender_init search_query;
         if Py.truthy gif_url then
           mood ← lift (Py.getitem analysis "mood");
           mood_title ← lift (Py.title mood);
           search_query' ← lift (Py.getitem analysis "search_query");
           confidence ← lift (Py.getitem analysis "confidence");
           send (SendEmbed
                   (Embed "Meme Recommendation"
                          ("**Mood detected:** " ++ mood_title ++ nl
                           ++ "**Context:** " ++ fmt env search_query')
                          0x00ff88
                          gif_url
                          ("Confidence: " ++ fmt env confidence
                           ++ " | Auto-detected")))
         else ret tt
     end)
    (fun e => logging_error "Auto-recommendation failed" e).

(** An inbound message event: whether the author is the bot itself, the
    channel, the author's display name and the text. *)
Record message : Type := {
  msg_is_self : bool;
  msg_channel : Z;
  msg_display_name : string;
  msg_content : string
}.

(** [on_message].  [process_commands] is the library's command dispatch,
    which may run a command on the dict and hands the dict back; [now] is
    the clock reading of the update and [auto] the outcome of the test
    [random.random() < 0.15]. *)
Definition on_message (env : Env)
    (process_commands : message -> contexts -> M contexts)
    (msg : message) (now : spec_float) (auto : bool)
    (conversation_contexts : contexts) : M contexts :=
  if msg_is_self msg then ret conversation_contexts
  else
    let updated :=
      update_conversation_context (msg_channel msg) (msg_display_name msg)
                                  (msg_content msg) now
                                  conversation_contexts in
    after_commands ← process_commands msg updated;
    if auto then
      _ ← auto_recommend_meme env (msg_channel msg) after_commands;
      ret after_commands
    else ret after_commands.

(** ** Histories of the dict *)

(** What can happen to the dict: a message is recorded, or a channel is
    cleared by the command. *)
Inductive store_op : Type :=
| OpRecord (channel_id : Z) (author content : string) (now : spec_float)
| OpClear (channel_id : Z).

Definition apply_op (op : store_op) (ctxs : contexts) : M contexts :=
  match op with
  | OpRecord c a t now => ret (update_conversation_context c a t now ctxs)
  | OpClear c => clear_context c ctxs
  end.

Fixpoint run_ops (ops : list store_op) (ctxs : contexts) : M contexts :=
  match ops with
  | [] => ret ctxs
  | op :: rest => ctxs' ← apply_op op ctxs; run_ops rest ctxs'
  end.

(** The messages recorded for a channel since it was last cleared, oldest
    first, starting from [acc]. *)
Fixpoint since_clear (channel_id : Z) (ops : list store_op)
    (acc : list Message) : list Message :=
  match ops with
  | [] => acc
  | OpRecord c a t now :: rest =>
      since_clear channel_id rest
        (if decide (c = channel_id)
         then (acc ++ [ {| author := a; content := t; timestamp := now |} ])%list
         else acc)
  | OpClear c :: rest =>
      since_clear channel_id rest (if decide (c = channel_id) then [] else acc)
  end.

(** The number of clear commands in a history. *)
Fixpoint clears (ops : list store_op) : nat :=
  match ops with
  | [] => 0%nat
  | OpClear _ :: rest => S (clears rest)
  | OpRecord _ _ _ _ :: rest => clears rest
  end.

(** The dict entry that holds [msgs]: none for no message, else the last
    ten. *)
Definition entry_of (msgs : list Message) : option (list Message) :=
  match msgs with
  | [] => None
  | _ => Some (Py.last_n MAX_CONTEXT_MESSAGES msgs)
  end.

(** The line of [show_context] for one message. *)
Definition context_line (msg : Message) : string :=
  "**" ++ author msg ++ ":** " ++ content msg.

(** ** What a computation sends *)

(** [m] sends nothing, whether it returns or raises. *)
Definition quiet {A} (m : M A) : Prop :=
  forall w, sent (snd (m w)) = sent w.

(** [m] sends exactly one message, satisfying [P], when it returns, and
    nothing when it raises. *)
Definition once {A} (P : outmsg -> Prop) (m : M A) : Prop :=
  forall w,
    match m w with
    | (Ret _, w') => exists msg, sent w' = (sent w ++ [msg])%list /\ P msg
    | (Raise _, w') => sent w' = sent w
    end.

(** [m] sends nothing, or one message satisfying [P] and then returns. *)
Definition at_most_once {A} (P : outmsg -> Prop) (m : M A) : Prop :=
  forall w,
    match m w with
    | (Ret _, w') =>
        sent w' = sent w
        \/ exists msg, sent w' = (sent w ++ [msg])%list /\ P msg
    | (Raise _, w') => sent w' = sent w
    end.

(** The replies of the manual command. *)
Definition is_manual_reply (msg : outmsg) : Prop :=
  (exists e, msg = SendEmbed e
             /\ embed_title e = "Meme Recommendation"
             /\ embed_color e = 0xff6b6b
             /\ Py.truthy (embed_image e) = true)
  \/ msg = SendText notice_no_meme
  \/ msg = SendText notice_failed.

(** The post of the automatic path. *)
Definition is_auto_post (msg : outmsg) : Prop :=
  exists e, msg = SendEmbed e
            /\ embed_title e = "Meme Recommendation"
            /\ embed_color e = 0x00ff88
            /\ Py.truthy (embed_image e) = true.

(** ** Text outside ASCII *)

(** A string of ASCII characters only. *)
Fixpoint is_ascii (s : string) : bool :=
  match s with
  | EmptyString => true
  | String c s' => (nat_of_ascii c <? 128)%nat && is_ascii s'
  end.

(** [MemeRecommender._fallback_analysis] with the library's [str.lower] as
    a parameter: [str_lower] is [str.lower] seen on the encoded text. *)
Definition _fallback_analysis_with (str_lower : string -> string)
    (messages : list string) : json :=
  let text := str_lower (PyStr.join " " messages) in
  if any_word_in roast_words text then roast_analysis
  else if any_word_in celebration_words text then celebration_analysis
  else if any_word_in chaos_words text then chaos_analysis
  else neutral_analysis.

(** What is known of [str.lower]: on ASCII text it is the ASCII case
    mapping. *)
Definition lowers_ascii (str_lower : string -> string) : Prop :=
  forall s, is_ascii s = true -> str_lower s = PyStr.lower s.

(** [str.lower] goes through a join with spaces message by message (the
    space is neither a cased nor a case-ignorable character). *)
Definition lowers_by_message (str_lower : string -> string) : Prop :=
  forall ms : list string,
    str_lower (PyStr.join " " ms) = PyStr.join " " (map str_lower ms).

(** A lowering for the examples that knows one letter outside ASCII: the
    KELVIN SIGN, encoded as the bytes 226 132 170, becomes k. *)
Fixpoint lower_kelvin (s : string) : string :=
  match s with
  | EmptyString => EmptyString
  | String a tl =>
      match tl with
      | String b (String c rest) =>
          if ((nat_of_ascii a =? 226) && (nat_of_ascii b =? 132)
              && (nat_of_ascii c =? 170))%nat
          then String "k" (lower_kelvin rest)
          else String (PyStr.lower_char a) (lower_kelvin tl)
      | _ => String (PyStr.lower_char a) (lower_kelvin tl)
      end
  end.

(** The text rekt spelled with the KELVIN SIGN. *)
Definition rekt_with_kelvin : string :=
  "re" ++ String (ascii_of_nat 226)
            (String (ascii_of_nat 132) (String (ascii_of_nat 170) "t")).

(** ** Sending that can fail *)

(** [await ctx.send(...)] on a platform that may refuse a message:
    [refuse m] is the exception the platform raises for [m], if any. *)
Definition send_or_fail (refuse : outmsg -> option exn) (m : outmsg)
  : M unit :=
  match refuse m with
  | Some e => raise e
  | None => send m
  end.

(** [recommend_meme] with the analyser and [ctx.send] as parameters. *)
Definition recommend_meme_on (ctx_send : outmsg -> M unit)
    (analyze : list string -> M json) (env : Env) (self : MemeRecommender)
    (channel_id : Z) (display_name : string) (context : option string)
    (conversation_contexts : contexts) : M unit :=
  try_except
    (analysis ← recommend_meme_analysis analyze channel_id context
                                        conversation_contexts;
     search_query ← lift (Py.getitem analysis "search_query");
     gif_url ← get_recommended_gif env self search_query;
     if Py.truthy gif_url then
       mood ← lift (Py.getitem analysis "mood");
       mood_title ← lift (Py.title mood);
       search_query' ← lift (Py.getitem analysis "search_query");
       confidence ← lift (Py.getitem analysis "confidence");
       ctx_send (SendEmbed
                   (Embed "Meme Recommendation"
                          ("**Mood:** " ++ mood_title ++ nl
                           ++ "**Search:** " ++ fmt env search_query')
                          0xff6b6b
                          gif_url
                          ("Confidence: " ++ fmt env confidence
                           ++ " | Requested by " ++ display_name)))
     else ctx_send (SendText notice_no_meme))
    (fun e => _ ← logging_error "Meme recommendation failed" e;
              ctx_send (SendText notice_failed)).

(** * Facts *)

(** ** Strings *)

Lemma app_nil_l (s : string) : "" ++ s = s.
Proof. reflexivity. Qed.

Lemma app_cons (c : ascii) (a b : string) : String c a ++ b = String c (a ++ b).
Proof. reflexivity. Qed.

Lemma append_assoc (a b c : string) : (a ++ b) ++ c = a ++ (b ++ c).
Proof.
  induction a as [|x a IH]; [reflexivity |].
  now rewrite !app_cons, IH.
Qed.

Lemma append_nil_r (a : string) : a ++ "" = a.
Proof.
  induction a as [|x a IH]; [reflexivity |].
  now rewrite app_cons, IH.
Qed.

Lemma startswith_spec (w t : string) :
  PyStr.startswith w t = true <-> exists post, t = w ++ post.
Proof.
  revert t. induction w as [|a w IH]; intros t.
  - simpl. split; [intros _; now exists t | reflexivity].
  - destruct t as [|b t]; simpl.
    + split; [discriminate | intros [post H]; discriminate].
    + rewrite andb_true_iff, Ascii.eqb_eq, IH. split.
      * intros [-> [post ->]]. now exists post.
      * intros [post H]. rewrite app_cons in H. injection H as -> ->.
        split; [reflexivity | now exists post].
Qed.

Lemma contains_spec (w t : string) :
  PyStr.contains w t = true <-> PyStr.occurs_in w t.
Proof.
  unfold PyStr.occurs_in. induction t as [|b t IH]; simpl.
  - rewrite orb_false_r, startswith_spec. split.
    + intros [post H]. now exists "", post.
    + intros [pre [post H]]. destruct pre; [now exists post | discriminate].
  - rewrite orb_true_iff, startswith_spec, IH. split.
    + intros [[post H] | [pre [post H]]].
      * now exists "", post.
      * exists (String b pre), post. now rewrite app_cons, H.
    + intros [pre [post H]]. destruct pre as [|x pre].
      * left. now exists post.
      * right. rewrite app_cons in H. injection H as -> ->. now exists pre, post.
Qed.

Lemma any_word_in_spec (words : list string) (text : string) :
  any_word_in words text = true <-> hits words text.
Proof.
  unfold any_word_in, hits. rewrite existsb_exists.
  split; intros [w [Hw Hc]]; exists w; split; auto; now apply contains_spec.
Qed.

Lemma any_word_in_false (words : list string) (text : string) :
  any_word_in words text = false <-> ~ hits words text.
Proof.
  rewrite <- any_word_in_spec. destruct (any_word_in words text); split;
    congruence.
Qed.

(** ** The keyword fallback *)

(** The four results are pairwise different. *)
Lemma analyses_distinct :
  NoDup [roast_analysis; celebration_analysis; chaos_analysis; neutral_analysis].
Proof.
  unfold roast_analysis, celebration_analysis, chaos_analysis,
    neutral_analysis, analysis_dict.
  repeat (apply NoDup_cons_2;
          [ rewrite ?elem_of_cons, elem_of_nil; intros H;
            repeat (destruct H as [H | H]; [discriminate H |]); exact H | ]).
  apply NoDup_nil_2.
Qed.

(** The bucket tests read as a decision list over [hits]. *)
Lemma fallback_analysis_cases (messages : list string) :
  let text := PyStr.lower (PyStr.join " " messages) in
  (hits roast_words text /\ _fallback_analysis messages = roast_analysis)
  \/ (~ hits roast_words text /\ hits celebration_words text
      /\ _fallback_analysis messages = celebration_analysis)
  \/ (~ hits roast_words text /\ ~ hits celebration_words text
      /\ hits chaos_words text
      /\ _fallback_analysis messages = chaos_analysis)
  \/ (~ hits roast_words text /\ ~ hits celebration_words text
      /\ ~ hits chaos_words text
      /\ _fallback_analysis messages = neutral_analysis).
Proof.
  intros text. unfold _fallback_analysis. fold text.
  destruct (any_word_in roast_words text) eqn:Hr.
  { left. split; [now apply any_word_in_spec | reflexivity]. }
  apply any_word_in_false in Hr.
  destruct (any_word_in celebration_words text) eqn:Hc.
  { right; left. repeat split; auto. now apply any_word_in_spec. }
  apply any_word_in_false in Hc.
  destruct (any_word_in chaos_words text) eqn:Hx.
  { right; right; left. repeat split; auto. now apply any_word_in_spec. }
  apply any_word_in_false in Hx.
  right; right; right. repeat split; auto.
Qed.

(** The bucket tests as a decision list, for any lowering. *)
Lemma fallback_with_cases (str_lower : string -> string)
    (messages : list string) :
  let text := str_lower (PyStr.join " " messages) in
  (hits roast_words text
   /\ _fallback_analysis_with str_lower messages = roast_analysis)
  \/ (~ hits roast_words text /\ hits celebration_words text
      /\ _fallback_analysis_with str_lower messages = celebration_analysis)
  \/ (~ hits roast_words text /\ ~ hits celebration_words text
      /\ hits chaos_words text
      /\ _fallback_analysis_with str_lower messages = chaos_analysis)
  \/ (~ hits roast_words text /\ ~ hits celebration_words text
      /\ ~ hits chaos_words text
      /\ _fallback_analysis_with str_lower messages = neutral_analysis).
Proof.
  intros text. unfold _fallback_analysis_with. fold text.
  destruct (any_word_in roast_words text) eqn:Hr.
  { left. split; [now apply any_word_in_spec | reflexivity]. }
  apply any_word_in_false in Hr.
  destruct (any_word_in celebration_words text) eqn:Hc.
  { right; left. repeat split; auto. now apply any_word_in_spec. }
  apply any_word_in_false in Hc.
  destruct (any_word_in chaos_words text) eqn:Hx.
  { right; right; left. repeat split; auto. now apply any_word_in_spec. }
  apply any_word_in_false in Hx.
  right; right; right. repeat split; auto.
Qed.

(** The ASCII case mapping is a lowering, and the program's function on it
    is [_fallback_analysis]. *)
Lemma lowers_ascii_lower : lowers_ascii PyStr.lower.
Proof. intros s _. reflexivity. Qed.

Lemma fallback_with_lower (messages : list string) :
  _fallback_analysis_with PyStr.lower messages = _fallback_analysis messages.
Proof. reflexivity. Qed.

(** On ASCII text every lowering gives what [_fallback_analysis] gives. *)
Lemma fallback_with_on_ascii (str_lower : string -> string)
    (messages : list string) :
  lowers_ascii str_lower ->
  is_ascii (PyStr.join " " messages) = true ->
  _fallback_analysis_with str_lower messages = _fallback_analysis messages.
Proof.
  intros Hlow Hascii. unfold _fallback_analysis_with, _fallback_analysis.
  now rewrite (Hlow _ Hascii).
Qed.

(** The lowering of the examples is the ASCII mapping on ASCII text. *)
Lemma lower_kelvin_ascii : lowers_ascii lower_kelvin.
Proof.
  intros s. induction s as [| a tl IH]; intros Hascii; [reflexivity |].
  cbn [is_ascii] in Hascii. apply andb_true_iff in Hascii.
  destruct Hascii as [Ha Htl]. specialize (IH Htl).
  assert (Hnot : (nat_of_ascii a =? 226)%nat = false).
  { apply Nat.ltb_lt in Ha. apply Nat.eqb_neq. lia. }
  cbn [lower_kelvin PyStr.lower].
  destruct tl as [| b [| c rest]]; try (now rewrite IH).
  rewrite Hnot. cbn [andb]. now rewrite IH.
Qed.

(** C3.  The keyword fallback returns exactly one of four fixed results,
    chosen by testing the lower-cased, space-joined text of all messages
    against the keyword lists in the order roast, celebration, chaos, the
    first list with a keyword occurring in the text winning and neutral
    being the result when none has one; the four results are pairwise
    different; the empty list of messages gives the neutral result with
    search query "reaction gif" and confidence "low"; and the single message
    "That was absolutely savage, you got roasted" gives mood "roast" with a
    search query that is not empty.  This holds for every message list,
    whatever [str.lower] does outside ASCII. *)
Theorem fallback_analysis_priority (str_lower : string -> string) :
  lowers_ascii str_lower ->
  (forall messages : list string,
     let text := str_lower (PyStr.join " " messages) in
     (hits roast_words text
      /\ _fallback_analysis_with str_lower messages = roast_analysis)
     \/ (~ hits roast_words text /\ hits celebration_words text
         /\ _fallback_analysis_with str_lower messages = celebration_analysis)
     \/ (~ hits roast_words text /\ ~ hits celebration_words text
         /\ hits chaos_words text
         /\ _fallback_analysis_with str_lower messages = chaos_analysis)
     \/ (~ hits roast_words text /\ ~ hits celebration_words text
         /\ ~ hits chaos_words text
         /\ _fallback_analysis_with str_lower messages = neutral_analysis))
  /\ NoDup [roast_analysis; celebration_analysis; chaos_analysis;
            neutral_analysis]
  /\ _fallback_analysis_with str_lower [] =
       JObj [ ("mood", JStr "neutral");
              ("search_query", JStr "reaction gif");
              ("confidence", JStr "low") ]
  /\ (exists search_query confidence,
        _fallback_analysis_with str_lower
          ["That was absolutely savage, you got roasted"] =
          JObj [ ("mood", JStr "roast");
                 ("search_query", JStr search_query);
                 ("confidence", JStr confidence) ]
        /\ search_query <> "").
Proof.
  intros Hlow.
  split; [exact (fallback_with_cases str_lower) |].
  split; [exact analyses_distinct |].
  split.
  - rewrite (fallback_with_on_ascii str_lower [] Hlow eq_refl). reflexivity.
  - exists "savage burn gif", "low". split; [| discriminate].
    rewrite (fallback_with_on_ascii str_lower
               ["That was absolutely savage, you got roasted"] Hlow eq_refl).
    reflexivity.
Qed.

Lemma fallback_analysis_priority_witness :
  lowers_ascii lower_kelvin
  /\ ((forall messages : list string,
         let text := lower_kelvin (PyStr.join " " messages) in
         (hits roast_words text
          /\ _fallback_analysis_with lower_kelvin messages = roast_analysis)
         \/ (~ hits roast_words text /\ hits celebration_words text
             /\ _fallback_analysis_with lower_kelvin messages
                = celebration_analysis)
         \/ (~ hits roast_words text /\ ~ hits celebration_words text
             /\ hits chaos_words text
             /\ _fallback_analysis_with lower_kelvin messages = chaos_analysis)
         \/ (~ hits roast_words text /\ ~ hits celebration_words text
             /\ ~ hits chaos_words text
             /\ _fallback_analysis_with lower_kelvin messages
                = neutral_analysis))
      /\ NoDup [roast_analysis; celebration_analysis; chaos_analysis;
                neutral_analysis]
      /\ _fallback_analysis_with lower_kelvin [] =
           JObj [ ("mood", JStr "neutral");
                  ("search_query", JStr "reaction gif");
                  ("confidence", JStr "low") ]
      /\ (exists search_query confidence,
            _fallback_analysis_with lower_kelvin
              ["That was absolutely savage, you got roasted"] =
              JObj [ ("mood", JStr "roast");
                     ("search_query", JStr search_query);
                     ("confidence", JStr confidence) ]
            /\ search_query <> "")).
Proof.
  split; [exact lower_kelvin_ascii |].
  exact (fallback_analysis_priority lower_kelvin lower_kelvin_ascii).
Defined.

(** A message that spells rekt with the KELVIN SIGN, under a lowering that
    maps the sign to k: the roast bucket is the one selected, also when a
    celebration keyword follows. *)
Example fallback_on_kelvin_sign :
  _fallback_analysis_with lower_kelvin [rekt_with_kelvin] = roast_analysis
  /\ _fallback_analysis_with lower_kelvin
       ["gg " ++ rekt_with_kelvin ++ ", what a win"] = roast_analysis
  /\ _fallback_analysis_with lower_kelvin ["what a WIN"] = celebration_analysis.
Proof. repeat split; reflexivity. Qed.

(** A counterexample to C9 as stated: the text contains "win" inside
    "window", yet the bucket of "win" is not the one selected, because a
    roast keyword occurs as well. *)
Lemma substring_bucket_outranked :
  In "win" celebration_words
  /\ PyStr.occurs_in "win" (PyStr.lower (PyStr.join " " ["burn the window"]))
  /\ _fallback_analysis ["burn the window"] = roast_analysis
  /\ _fallback_analysis ["burn the window"] <> celebration_analysis.
Proof.
  split; [cbn; tauto |].
  split; [exists "burn the ", "dow"; reflexivity |].
  split; [reflexivity | discriminate].
Qed.

(** C9 (amended).  A bucket's test is substring containment on the
    lower-cased, space-joined text, whatever characters surround the keyword:
    a roast keyword anywhere in the text selects roast; a celebration keyword
    selects celebration unless a roast keyword occurs too; a chaos keyword
    selects chaos unless a roast or celebration keyword occurs too.  The
    message "look out of the window" selects celebration through "win".
    This holds for every message list, whatever [str.lower] does outside
    ASCII. *)
Theorem fallback_substring_buckets (str_lower : string -> string) :
  lowers_ascii str_lower ->
  (forall words text, any_word_in words text = true <-> hits words text)
  /\ (forall (messages : list string) (w pre post : string),
        str_lower (PyStr.join " " messages) = pre ++ w ++ post ->
        (In w roast_words ->
         _fallback_analysis_with str_lower messages = roast_analysis)
        /\ (In w celebration_words ->
            ~ hits roast_words (pre ++ w ++ post) ->
            _fallback_analysis_with str_lower messages = celebration_analysis)
        /\ (In w chaos_words ->
            ~ hits roast_words (pre ++ w ++ post) ->
            ~ hits celebration_words (pre ++ w ++ post) ->
            _fallback_analysis_with str_lower messages = chaos_analysis))
  /\ _fallback_analysis_with str_lower ["look out of the window"]
     = celebration_analysis.
Proof.
  intros Hlow.
  split; [exact any_word_in_spec |].
  split.
  2:{ rewrite (fallback_with_on_ascii str_lower ["look out of the window"]
                 Hlow eq_refl).
      reflexivity. }
  intros messages w pre post Htext.
  assert (Hocc : PyStr.occurs_in w (str_lower (PyStr.join " " messages)))
    by (now exists pre, post).
  rewrite <- Htext.
  destruct (fallback_with_cases str_lower messages)
    as [[Hr ->] | [[Hr [Hc ->]] | [[Hr [Hc [Hx ->]]] | [Hr [Hc [Hx ->]]]]]];
    repeat split; intros; try reflexivity; exfalso;
    match goal with
    | H : ~ hits ?ws _, Hin : In w ?ws |- _ => apply H; now exists w
    | _ => tauto
    end.
Qed.

Lemma fallback_substring_buckets_witness :
  lowers_ascii lower_kelvin
  /\ ((forall words text, any_word_in words text = true <-> hits words text)
      /\ (forall (messages : list string) (w pre post : string),
            lower_kelvin (PyStr.join " " messages) = pre ++ w ++ post ->
            (In w roast_words ->
             _fallback_analysis_with lower_kelvin messages = roast_analysis)
            /\ (In w celebration_words ->
                ~ hits roast_words (pre ++ w ++ post) ->
                _fallback_analysis_with lower_kelvin messages
                = celebration_analysis)
            /\ (In w chaos_words ->
                ~ hits roast_words (pre ++ w ++ post) ->
                ~ hits celebration_words (pre ++ w ++ post) ->
                _fallback_analysis_with lower_kelvin messages
                = chaos_analysis))
      /\ _fallback_analysis_with lower_kelvin ["look out of the window"]
         = celebration_analysis).
Proof.
  split; [exact lower_kelvin_ascii |].
  exact (fallback_substring_buckets lower_kelvin lower_kelvin_ascii).
Defined.

(** ** The conversation contexts *)

Lemma last_n_length {A} (n : nat) (l : list A) :
  (length (Py.last_n n l) <= n)%nat.
Proof. unfold Py.last_n. rewrite length_drop. lia. Qed.

Lemma last_n_short {A} (n : nat) (l : list A) :
  (length l <= n)%nat -> Py.last_n n l = l.
Proof.
  intros H. unfold Py.last_n.
  replace (length l - n)%nat with 0%nat by lia. reflexivity.
Qed.

Lemma last_n_suffix {A} (n : nat) (l : list A) :
  exists evicted, l = (evicted ++ Py.last_n n l)%list.
Proof.
  exists (take (length l - n) l). unfold Py.last_n.
  now rewrite take_drop.
Qed.

Lemma last_n_app {A} (n : nat) (l r : list A) :
  Py.last_n n (Py.last_n n l ++ r) = Py.last_n n (l ++ r).
Proof.
  unfold Py.last_n.
  destruct (decide (length l <= n)%nat) as [Hle | Hgt].
  - replace (length l - n)%nat with 0%nat by lia. now rewrite drop_0.
  - rewrite !length_app, length_drop.
    replace (length l + length r - n)%nat
      with ((length l - n) + length r)%nat by lia.
    rewrite <- drop_drop, (drop_app_le l r (length l - n)) by lia.
    f_equal. lia.
Qed.

Lemma last_n_cons_full {A} (n : nat) (x : A) (l : list A) :
  (n <= length l)%nat -> Py.last_n n (x :: l) = Py.last_n n l.
Proof.
  intros H. unfold Py.last_n. cbn [length].
  replace (S (length l) - n)%nat with (S (length l - n)) by lia.
  reflexivity.
Qed.

(** The buffer of the channel written to. *)
Lemma update_lookup_eq (c : Z) (a t : string) (now : spec_float)
    (s : contexts) :
  update_conversation_context c a t now s !! c =
    Some (Py.last_n MAX_CONTEXT_MESSAGES
            (default [] (s !! c)
             ++ [ {| author := a; content := t; timestamp := now |} ])).
Proof.
  unfold update_conversation_context.
  set (m := {| author := a; content := t; timestamp := now |}).
  set (created := match s !! c with None => <[c:=[]]> s | Some _ => s end).
  assert (Hc : created !! c = Some (default [] (s !! c))).
  { subst created. destruct (s !! c) eqn:E; cbn.
    - exact E.
    - apply lookup_insert_eq. }
  rewrite lookup_alter_eq, Hc. cbn [fmap option_fmap option_map].
  destruct (MAX_CONTEXT_MESSAGES <? length (default [] (s !! c) ++ [m]))%nat
    eqn:Hlen.
  - apply lookup_insert_eq.
  - rewrite lookup_alter_eq, Hc. cbn [fmap option_fmap option_map].
    apply Nat.ltb_ge in Hlen. now rewrite last_n_short.
Qed.

(** The buffers of the other channels. *)
Lemma update_lookup_ne (c c' : Z) (a t : string) (now : spec_float)
    (s : contexts) :
  c <> c' -> update_conversation_context c a t now s !! c' = s !! c'.
Proof.
  intros Hne. unfold update_conversation_context.
  set (created := match s !! c with None => <[c:=[]]> s | Some _ => s end).
  assert (Hc : created !! c' = s !! c').
  { subst created. destruct (s !! c); [reflexivity |].
    now apply lookup_insert_ne. }
  match goal with
  | |- context [alter ?f c created] => set (appended := alter f c created)
  end.
  assert (Ha : appended !! c' = s !! c').
  { subst appended. now rewrite lookup_alter_ne. }
  destruct (appended !! c) as [buf |]; [| exact Ha].
  destruct (MAX_CONTEXT_MESSAGES <? length buf)%nat; [| exact Ha].
  now rewrite lookup_insert_ne.
Qed.

Lemma recorded_on_cons (c : Z) (op : record_op) (ops : list record_op) :
  recorded_on c (op :: ops) =
    if decide (op_channel op = c)
    then op_message op :: recorded_on c ops
    else recorded_on c ops.
Proof.
  unfold recorded_on. rewrite filter_cons.
  destruct (decide (op_channel op = c)); reflexivity.
Qed.

(** A channel's buffer after a replay: untouched when nothing was recorded
    for it, else the last ten of what it held followed by what was
    recorded. *)
Lemma replay_lookup (ops : list record_op) (s : contexts) (c : Z) :
  replay ops s !! c =
    match recorded_on c ops with
    | [] => s !! c
    | _ :: _ =>
        Some (Py.last_n MAX_CONTEXT_MESSAGES
                (default [] (s !! c) ++ recorded_on c ops))
    end.
Proof.
  revert s. induction ops as [| op ops IH]; intros s; [reflexivity |].
  change (replay (op :: ops) s) with (replay ops (record op s)).
  rewrite IH, recorded_on_cons.
  destruct op as [[[ch a] t] now]. unfold op_channel, op_message, record.
  cbn [fst snd].
  destruct (decide (ch = c)) as [-> | Hne].
  - rewrite update_lookup_eq. cbn [from_option id].
    destruct (recorded_on c ops) as [| m ms].
    + reflexivity.
    + f_equal. rewrite last_n_app, <- app_assoc. reflexivity.
  - rewrite update_lookup_ne by exact Hne. reflexivity.
Qed.

(** C4.  Replaying any list of record operations over any channels from the
    empty dict, the buffer of every channel is the last ten of the messages
    recorded for that channel, in the order they were recorded: it has at
    most ten entries, it is what remains of the recorded messages once the
    oldest ones are dropped, and once a first message has been followed by at
    least ten more on its channel (eleven record calls or more) the buffer
    consists of later messages only, so the first one is gone from it. *)
Theorem context_buffer_fifo (ops : list record_op) (c : Z) :
  let buf := default [] (replay ops ∅ !! c) in
  buf = Py.last_n 10 (recorded_on c ops)
  /\ (length buf <= 10)%nat
  /\ (exists evicted, recorded_on c ops = (evicted ++ buf)%list)
  /\ (forall first later,
        recorded_on c ops = first :: later ->
        (10 <= length later)%nat ->
        buf = Py.last_n 10 later
        /\ (~ In first later -> ~ In first buf)).
Proof.
  intros buf.
  assert (Hbuf : buf = Py.last_n 10 (recorded_on c ops)).
  { subst buf. rewrite replay_lookup, lookup_empty.
    destruct (recorded_on c ops); reflexivity. }
  split; [exact Hbuf |].
  split; [rewrite Hbuf; apply last_n_length |].
  split; [rewrite Hbuf; apply last_n_suffix |].
  intros first later Hrec Hlen.
  assert (Hlater : buf = Py.last_n 10 later).
  { rewrite Hbuf, Hrec. now apply last_n_cons_full. }
  split; [exact Hlater |].
  intros Hnot Hin. apply Hnot.
  destruct (last_n_suffix 10 later) as [evicted Hev].
  rewrite Hev, <- Hlater. apply in_or_app. now right.
Qed.

(** Eleven messages on one channel, with another channel in between: the
    first message is evicted, the other ten remain in order. *)
Example eleven_records :
  let t := S754_zero false in
  let op (ch : Z) (text : string) : record_op := (ch, "ann", text, t) in
  let msg (text : string) := {| author := "ann"; content := text; timestamp := t |} in
  replay [ op 7 "m1"; op 7 "m2"; op 8 "other"; op 7 "m3"; op 7 "m4"; op 7 "m5";
           op 7 "m6"; op 7 "m7"; op 7 "m8"; op 7 "m9"; op 7 "m10"; op 7 "m11" ]
         ∅ !! 7
  = Some (map msg ["m2"; "m3"; "m4"; "m5"; "m6"; "m7"; "m8"; "m9"; "m10"; "m11"]).
Proof. intros t op msg. rewrite replay_lookup. reflexivity. Qed.

(** C10.  Recording a message for one channel leaves the buffer of every
    other channel as it was, whatever the dict holds. *)
Theorem update_frames_other_channels (c1 c2 : Z) (a t : string)
    (now : spec_float) (s : contexts) :
  c1 <> c2 ->
  update_conversation_context c1 a t now s !! c2 = s !! c2
  /\ forall n, recent (update_conversation_context c1 a t now s) c2 n
               = recent s c2 n.
Proof.
  intros Hne.
  assert (H : update_conversation_context c1 a t now s !! c2 = s !! c2)
    by now apply update_lookup_ne.
  split; [exact H |]. intros n. unfold recent. now rewrite H.
Qed.

Lemma update_frames_other_channels_witness :
  let m := {| author := "bob"; content := "hello"; timestamp := S754_zero false |} in
  1 <> 2
  /\ (update_conversation_context 1 "ann" "hi" (S754_zero false) {[ 2 := [m] ]}
        !! 2 = ({[ 2 := [m] ]} : contexts) !! 2
      /\ forall n,
           recent (update_conversation_context 1 "ann" "hi" (S754_zero false)
                     {[ 2 := [m] ]}) 2 n
           = recent {[ 2 := [m] ]} 2 n).
Proof.
  split; [lia |].
  apply (update_frames_other_channels 1 2); lia.
Defined.

(** [clear_context] on a channel that has an entry. *)
Lemma clear_context_present (c : Z) (s : contexts) (w : world)
    (buf : list Message) :
  s !! c = Some buf ->
  clear_context c s w =
    (Ret (delete c s),
     World (rng w) (log w) (sent w ++ [SendText notice_cleared])).
Proof. intros Hbuf. unfold clear_context. now rewrite Hbuf. Qed.

(** [clear_context] on a channel that has none. *)
Lemma clear_context_absent (c : Z) (s : contexts) (w : world) :
  s !! c = None ->
  clear_context c s w =
    (Ret s,
     World (rng w) (log w) (sent w ++ [SendText notice_nothing_to_clear])).
Proof. intros Hnone. unfold clear_context. now rewrite Hnone. Qed.

(** C8.  When the channel has an entry, [clear_context] deletes it and
    reports that the context was cleared: afterwards the channel has no
    entry, reading its recent messages gives the empty list for every
    length, and the show command finds no context.  When the channel has no
    entry, [clear_context] returns (it does not raise), leaves the dict as it
    is and reports that there was nothing to clear. *)
Theorem clear_context_removes_entry (c : Z) (s : contexts) (w : world) :
  (forall buf, s !! c = Some buf ->
     clear_context c s w =
       (Ret (delete c s),
        World (rng w) (log w) (sent w ++ [SendText notice_cleared]))
     /\ delete c s !! c = None
     /\ (forall n, recent (delete c s) c n = [])
     /\ (forall w', show_context c (delete c s) w' =
           (Ret tt, World (rng w') (log w')
                          (sent w' ++ [SendText notice_no_context]))))
  /\ (s !! c = None ->
      clear_context c s w =
        (Ret s,
         World (rng w) (log w) (sent w ++ [SendText notice_nothing_to_clear]))).
Proof.
  split.
  - intros buf Hbuf.
    split; [exact (clear_context_present c s w buf Hbuf) |].
    assert (Hdel : delete c s !! c = None) by apply lookup_delete_eq.
    split; [exact Hdel |].
    split.
    + intros n. unfold recent. now rewrite Hdel.
    + intros w'. unfold show_context. now rewrite Hdel.
  - apply clear_context_absent.
Qed.

(** Clearing a recorded channel, then clearing it again. *)
Example clear_twice :
  let s := update_conversation_context 5 "ann" "hi" (S754_zero false) ∅ in
  exists s1 w1 s2 w2,
    clear_context 5 s world0 = (Ret s1, w1)
    /\ clear_context 5 s1 w1 = (Ret s2, w2)
    /\ s1 = ∅ /\ s2 = ∅
    /\ sent w2 = [SendText notice_cleared; SendText notice_nothing_to_clear].
Proof.
  intros s.
  pose proof (clear_context_present 5 s world0 _
                (update_lookup_eq 5 "ann" "hi" (S754_zero false) ∅)) as H1.
  assert (Hempty : delete 5 s = (∅ : contexts)).
  { apply map_eq. intros i. rewrite lookup_empty.
    destruct (decide (5 = i)) as [<- | Hne].
    - apply lookup_delete_eq.
    - rewrite lookup_delete_ne by exact Hne. subst s.
      rewrite update_lookup_ne by exact Hne. apply lookup_empty. }
  do 4 eexists. split; [exact H1 |].
  rewrite Hempty. repeat split; reflexivity.
Qed.

(** ** Extraction of the JSON text from a reply *)

Lemma length_app_str (a b : string) :
  String.length (a ++ b) = (String.length a + String.length b)%nat.
Proof.
  induction a as [| x a IH]; [reflexivity |].
  rewrite app_cons. cbn [String.length]. now rewrite IH.
Qed.

Lemma drop_app_str (a b : string) : PyStr.drop (String.length a) (a ++ b) = b.
Proof. induction a as [| x a IH]; [now destruct b | exact IH]. Qed.

Lemma take_app_str (a b : string) : PyStr.take (String.length a) (a ++ b) = a.
Proof.
  induction a as [| x a IH]; [now destruct b |].
  rewrite app_cons. cbn [String.length PyStr.take]. now rewrite IH.
Qed.

Lemma take_0_str (s : string) : PyStr.take 0 s = "".
Proof. now destruct s. Qed.

(** A slice that cuts at the ends of a middle part. *)
Lemma slice_middle (pre mid post : string) :
  PyStr.slice (pre ++ mid ++ post)
              (Z.of_nat (String.length pre))
              (Z.of_nat (String.length pre + String.length mid)) = mid.
Proof.
  unfold PyStr.slice, PyStr.clamp. rewrite !length_app_str.
  destruct (Z.ltb_spec (Z.of_nat (String.length pre)) 0); [lia |].
  destruct (Z.ltb_spec
              (Z.of_nat (String.length pre + String.length mid)) 0); [lia |].
  rewrite !Z.min_l by lia.
  rewrite Nat2Z.id.
  replace (Z.to_nat (Z.of_nat (String.length pre + String.length mid)
                     - Z.of_nat (String.length pre)))
    with (String.length mid) by lia.
  now rewrite drop_app_str, take_app_str.
Qed.

(** A slice whose end is not after its start is empty. *)
Lemma slice_empty (t : string) (i j : Z) :
  0 <= j <= i -> PyStr.slice t i j = "".
Proof.
  intros H. unfold PyStr.slice, PyStr.clamp.
  destruct (Z.ltb_spec i 0); [lia |]. destruct (Z.ltb_spec j 0); [lia |].
  replace (Z.to_nat (Z.min j (Z.of_nat (String.length t))
                     - Z.min i (Z.of_nat (String.length t)))) with 0%nat by lia.
  apply take_0_str.
Qed.

Lemma contains_char_cons (c b : ascii) (t : string) :
  PyStr.contains (String c "") (String b t) =
    Ascii.eqb c b || PyStr.contains (String c "") t.
Proof. cbn. now rewrite andb_true_r. Qed.

Lemma contains_char_app (c : ascii) (a b : string) :
  PyStr.contains (String c "") (a ++ b) =
    PyStr.contains (String c "") a || PyStr.contains (String c "") b.
Proof.
  induction a as [| x a IH].
  - rewrite app_nil_l. reflexivity.
  - rewrite app_cons, !contains_char_cons, IH. now rewrite orb_assoc.
Qed.

(** The first occurrence of a character. *)
Lemma find_char_split (c : ascii) (t : string) :
  PyStr.contains (String c "") t = true ->
  exists pre rest,
    t = pre ++ String c rest
    /\ PyStr.contains (String c "") pre = false
    /\ PyStr.find (String c "") t = Z.of_nat (String.length pre).
Proof.
  induction t as [| b t IH]; [discriminate |].
  rewrite contains_char_cons. cbn [PyStr.find PyStr.startswith].
  rewrite andb_true_r.
  destruct (Ascii.eqb_spec c b) as [-> | Hne].
  - intros _. exists "", t. repeat split.
  - cbn [orb]. intros Ht. destruct (IH Ht) as [pre [rest [-> [Hpre Hfind]]]].
    exists (String b pre), rest. rewrite app_cons, contains_char_cons, Hpre.
    repeat split.
    + apply Ascii.eqb_neq in Hne. now rewrite Hne.
    + rewrite Hfind. destruct (Z.ltb_spec (Z.of_nat (String.length pre)) 0);
        [lia |]. cbn [String.length]. lia.
Qed.

(** The last occurrence of a character. *)
Lemma rfind_char_split (c : ascii) (t : string) :
  PyStr.contains (String c "") t = true ->
  exists pre post,
    t = pre ++ String c post
    /\ PyStr.contains (String c "") post = false
    /\ PyStr.rfind (String c "") t = Z.of_nat (String.length pre).
Proof.
  induction t as [| b t IH]; [discriminate |].
  rewrite contains_char_cons. cbn [PyStr.rfind PyStr.startswith].
  rewrite andb_true_r.
  destruct (PyStr.contains (String c "") t) eqn:Ht.
  - intros _. destruct (IH eq_refl) as [pre [post [-> [Hpost Hfind]]]].
    exists (String b pre), post. rewrite app_cons. repeat split; [exact Hpost |].
    rewrite Hfind.
    destruct (Z.leb_spec 0 (Z.of_nat (String.length pre))); [| lia].
    cbn [String.length]. lia.
  - rewrite orb_false_r. intros Hcb. rewrite Hcb.
    apply Ascii.eqb_eq in Hcb. subst b.
    assert (Hr : PyStr.rfind (String c "") t < 0).
    { clear IH. induction t as [| x t IHt]; [cbn; lia |].
      rewrite contains_char_cons in Ht. apply orb_false_iff in Ht.
      destruct Ht as [Hx Ht]. cbn [PyStr.rfind PyStr.startswith].
      rewrite andb_true_r, Hx.
      destruct (Z.leb_spec 0 (PyStr.rfind (String c "") t));
        [specialize (IHt Ht); lia | lia]. }
    destruct (Z.leb_spec 0 (PyStr.rfind (String c "") t)); [lia |].
    exists "", t. repeat split. exact Ht.
Qed.

(** Two ways of cutting one string share a middle part. *)
Lemma app_eq_split (a b c d : string) :
  a ++ b = c ++ d ->
  (exists m, c = a ++ m /\ b = m ++ d) \/ (exists m, a = c ++ m /\ d = m ++ b).
Proof.
  revert c. induction a as [| x a IH]; intros c H.
  - left. exists c. split; [reflexivity | exact H].
  - destruct c as [| y c].
    + right. exists (String x a). split; [reflexivity | exact (eq_sym H)].
    + rewrite !app_cons in H. injection H as -> H.
      destruct (IH c H) as [[m [-> ->]] | [m [-> ->]]].
      * left. now exists m.
      * right. now exists m.
Qed.

(** Every reply falls in one of three cases. *)
Lemma extract_json_str_cases (text : string) :
  (PyStr.contains "{" text && PyStr.contains "}" text = false
   /\ extract_json_str text = Raise (ValueError "Invalid response format"))
  \/ (exists pre body post,
        text = pre ++ "{" ++ body ++ "}" ++ post
        /\ PyStr.contains "{" pre = false
        /\ PyStr.contains "}" post = false
        /\ extract_json_str text = Ret ("{" ++ body ++ "}"))
  \/ (exists pre rest,
        text = pre ++ "{" ++ rest
        /\ PyStr.contains "{" pre = false
        /\ PyStr.contains "}" pre = true
        /\ PyStr.contains "}" rest = false
        /\ extract_json_str text = Ret "").
Proof.
  unfold extract_json_str.
  destruct (PyStr.contains "{" text) eqn:Ho; [| left; now split].
  destruct (PyStr.contains "}" text) eqn:Hc; [| left; now split].
  right. cbn [andb].
  destruct (find_char_split _ _ Ho) as [pre [rest [Htext [Hpre Hfind]]]].
  destruct (rfind_char_split _ _ Hc) as [pre2 [post [Htext2 [Hpost Hrfind]]]].
  rewrite Hfind, Hrfind.
  assert (Hsame : pre ++ String "{" rest = pre2 ++ String "}" post)
    by congruence.
  destruct (app_eq_split _ _ _ _ Hsame) as [[m [Hp2 Hm]] | [m [Hp Hm]]].
  - left. destruct m as [| y m]; [discriminate Hm |].
    rewrite app_cons in Hm. injection Hm as <- Hrest.
    exists pre, m, post. subst rest pre2.
    split; [exact Htext |]. split; [exact Hpre |]. split; [exact Hpost |].
    f_equal. rewrite Htext.
    change (pre ++ String "{" (m ++ String "}" post))
      with (pre ++ "{" ++ (m ++ "}" ++ post)).
    rewrite <- (append_assoc m "}" post), <- (append_assoc "{" _ post).
    replace (Z.of_nat (String.length (pre ++ String "{" m)) + 1)
      with (Z.of_nat (String.length pre + String.length ("{" ++ m ++ "}"))).
    + apply slice_middle.
    + rewrite !length_app_str. cbn [String.length]. lia.
  - right. destruct m as [| y m]; [discriminate Hm |].
    rewrite app_cons in Hm. injection Hm as <- Hpost'.
    exists pre, rest. subst post pre.
    rewrite contains_char_app, contains_char_cons in Hpost.
    apply orb_false_iff in Hpost. destruct Hpost as [_ Hrest].
    apply orb_false_iff in Hrest. destruct Hrest as [_ Hrest].
    split; [exact Htext |]. split; [exact Hpre |].
    split; [| split; [exact Hrest |]].
    + rewrite contains_char_app, contains_char_cons, Ascii.eqb_refl.
      now rewrite orb_true_r.
    + f_equal. apply slice_empty. rewrite length_app_str. cbn [String.length].
      lia.
Qed.

Lemma not_contains (w t : string) :
  PyStr.contains w t = false <-> ~ PyStr.occurs_in w t.
Proof.
  rewrite <- contains_spec. destruct (PyStr.contains w t); split; congruence.
Qed.

(** The primary path, step by step. *)
Lemma analyze_with_gemini_run (env : Env) (messages : list string) (w : world) :
  _analyze_with_gemini env messages w =
    match generate_content env
            (gemini_prompt (PyStr.join nl (Py.last_n 5 messages))) with
    | Raise e => (Raise e, logged w "Gemini analysis failed" e)
    | Ret text =>
        match extract_json_str text with
        | Raise e => (Raise e, logged w "Gemini analysis failed" e)
        | Ret json_str =>
            match json_loads env json_str with
            | Raise e => (Raise e, logged w "Gemini analysis failed" e)
            | Ret v => (Ret v, w)
            end
        end
    end.
Proof.
  unfold _analyze_with_gemini, try_except, mbind, M_bind, bind, lift.
  destruct (generate_content env _) as [text | e]; [| reflexivity].
  destruct (extract_json_str text) as [json_str | e]; [| reflexivity].
  destruct (json_loads env json_str) as [v | e]; reflexivity.
Qed.

(** A counterexample to C5 as stated: on a reply with two objects the text
    handed to the decoder runs from the first opening brace to the last
    closing brace, while the first balanced substring is the first object. *)
Lemma first_balanced_not_extracted :
  extract_json_str "{} and {}" = Ret "{} and {}"
  /\ spec_first_balanced "{} and {}" = Some "{}".
Proof. split; reflexivity. Qed.

(** C5 (amended).  From the reply text the program takes the substring that
    runs from the first opening brace to the last closing brace, both
    included, and hands it to the JSON decoder; the substring is empty when
    the last closing brace comes before the first opening brace.  A reply
    that lacks an opening or a closing brace raises, and so does a substring
    the decoder rejects: both are failures of the primary path. *)
Theorem reply_json_first_to_last_brace :
  (forall text : string,
     ((~ PyStr.occurs_in "{" text \/ ~ PyStr.occurs_in "}" text)
      /\ extract_json_str text = Raise (ValueError "Invalid response format"))
     \/ (exists pre body post,
           text = pre ++ "{" ++ body ++ "}" ++ post
           /\ ~ PyStr.occurs_in "{" pre
           /\ ~ PyStr.occurs_in "}" post
           /\ extract_json_str text = Ret ("{" ++ body ++ "}"))
     \/ (exists pre rest,
           text = pre ++ "{" ++ rest
           /\ ~ PyStr.occurs_in "{" pre
           /\ PyStr.occurs_in "}" pre
           /\ ~ PyStr.occurs_in "}" rest
           /\ extract_json_str text = Ret ""))
  /\ (forall (env : Env) (messages : list string) (w : world),
        fst (_analyze_with_gemini env messages w) =
          match generate_content env
                  (gemini_prompt (PyStr.join nl (Py.last_n 5 messages))) with
          | Raise e => Raise e
          | Ret text =>
              match extract_json_str text with
              | Raise e => Raise e
              | Ret json_str => json_loads env json_str
              end
          end).
Proof.
  split.
  - intros text.
    destruct (extract_json_str_cases text)
      as [[Hno Hex] | [[pre [body [post [Ht [Hpre [Hpost Hex]]]]]]
                       | [pre [rest [Ht [Hpre [Hpre' [Hrest Hex]]]]]]]].
    + left. split; [| exact Hex].
      apply andb_false_iff in Hno.
      destruct Hno as [H | H]; [left | right]; now apply not_contains.
    + right; left. exists pre, body, post.
      repeat split; try assumption; now apply not_contains.
    + right; right. exists pre, rest.
      repeat split; try assumption;
        try (now apply not_contains); now apply contains_spec.
  - intros env messages w. rewrite analyze_with_gemini_run.
    destruct (generate_content env _) as [text | e]; [| reflexivity].
    destruct (extract_json_str text) as [json_str | e]; [| reflexivity].
    destruct (json_loads env json_str); reflexivity.
Qed.

(** Replies with prose around one object, with the braces in the wrong
    order, and with no brace. *)
Example extract_examples :
  extract_json_str "Sure! {x} Hope that helps." = Ret "{x}"
  /\ extract_json_str "} then {" = Ret ""
  /\ extract_json_str "no json here" = Raise (ValueError "Invalid response format").
Proof. repeat split; reflexivity. Qed.

(** ** Mood analysis *)

(** Every fallback result is a well-formed analysis. *)
Lemma fallback_is_mood_analysis (messages : list string) :
  is_mood_analysis (_fallback_analysis messages) = true.
Proof.
  unfold _fallback_analysis.
  destruct (any_word_in roast_words _); [reflexivity |].
  destruct (any_word_in celebration_words _); [reflexivity |].
  destruct (any_word_in chaos_words _); reflexivity.
Qed.

Lemma analyze_run (env : Env) (messages : list string) (w : world) :
  analyze_conversation_mood env messages w =
    if key_set (GEMINI_API_KEY env) then
      match _analyze_with_gemini env messages w with
      | (Ret v, w') => (Ret v, w')
      | (Raise e, w') =>
          (Ret (_fallback_analysis messages),
           logged w' "Error analyzing conversation" e)
      end
    else (Ret (_fallback_analysis messages), w).
Proof.
  unfold analyze_conversation_mood, try_except.
  destruct (key_set (GEMINI_API_KEY env)); [| reflexivity].
  destruct (_analyze_with_gemini env messages w) as [[v | e] w'];
    reflexivity.
Qed.

(** A counterexample to C2 as stated: the reasoning service answers with the
    empty object, which the program returns as the analysis although it has
    none of the three fields; reading its search query raises. *)
Lemma analysis_without_fields :
  fst (analyze_conversation_mood env_empty_object_reply ["hello"] world0)
    = Ret (JObj [])
  /\ is_mood_analysis (JObj []) = false
  /\ Py.getitem (JObj []) "search_query" = Raise KeyError.
Proof. repeat split; reflexivity. Qed.

(** C2 (amended).  For every list of messages the analysis returns and never
    raises.  Without a reasoning credential, and whenever the primary path
    raises (the exception is caught and logged), the result is the keyword
    fallback's, which is a well-formed MoodAnalysis.  When the primary path
    returns, the result is the value decoded from the reply as it is: its
    fields are not checked. *)
Theorem analyze_never_raises (env : Env) (messages : list string) (w : world) :
  exists v w',
    analyze_conversation_mood env messages w = (Ret v, w')
    /\ (key_set (GEMINI_API_KEY env) = false ->
        v = _fallback_analysis messages /\ w' = w)
    /\ (forall e,
          key_set (GEMINI_API_KEY env) = true ->
          fst (_analyze_with_gemini env messages w) = Raise e ->
          v = _fallback_analysis messages
          /\ In (LogError "Error analyzing conversation" e) (log w'))
    /\ (forall r,
          key_set (GEMINI_API_KEY env) = true ->
          fst (_analyze_with_gemini env messages w) = Ret r ->
          v = r)
    /\ is_mood_analysis (_fallback_analysis messages) = true.
Proof.
  rewrite analyze_run.
  destruct (key_set (GEMINI_API_KEY env)) eqn:Hkey.
  - destruct (_analyze_with_gemini env messages w) as [[r | e] w1] eqn:Hrun.
    + exists r, w1. split; [reflexivity |].
      split; [discriminate |].
      split; [intros e _ He; discriminate He |].
      split; [intros r' _ Hr; now injection Hr | ].
      apply fallback_is_mood_analysis.
    + exists (_fallback_analysis messages),
             (logged w1 "Error analyzing conversation" e).
      split; [reflexivity |].
      split; [discriminate |].
      split.
      * intros e' _ He. injection He as <-. split; [reflexivity |].
        cbn. apply in_or_app. right. now left.
      * split; [intros r _ Hr; discriminate Hr |].
        apply fallback_is_mood_analysis.
  - exists (_fallback_analysis messages), w. split; [reflexivity |].
    split; [now split |].
    split; [discriminate |]. split; [discriminate |].
    apply fallback_is_mood_analysis.
Qed.

(** A reasoning service that raises in the middle of the request: the
    roast message still gets the roast analysis, and both handlers log. *)
Example analyze_when_service_raises :
  analyze_conversation_mood env_service_raises
    ["That was absolutely savage, you got roasted"] world0
  = (Ret roast_analysis,
     World (fun _ => 0%nat)
           [ LogError "Gemini analysis failed" (ServiceError "reasoning service");
             LogError "Error analyzing conversation"
                      (ServiceError "reasoning service") ]
           []).
Proof. reflexivity. Qed.

(** ** GIF selection *)

Lemma choose_fallback_ok (self : MemeRecommender) (w : world) :
  fallback_gifs self <> [] ->
  exists url,
    In url (fallback_gifs self)
    /\ choose_fallback self w = (Ret (JStr url), drawn w).
Proof.
  intros Hne. unfold choose_fallback, random_choice.
  destruct (fallback_gifs self) as [| x l] eqn:Hg; [congruence |].
  exists (nth (rng w 0%nat mod length (x :: l)) (x :: l) x). split.
  - apply nth_In. apply Nat.mod_upper_bound. discriminate.
  - reflexivity.
Qed.

(** When the response block returns a value, the service answered 200 with
    a dict whose results are a list, and the value is the url entry of one
    of the results. *)
Lemma gif_from_response_some (status : Z) (body : result json)
    (w w' : world) (v : json) :
  gif_from_response status body w = (Ret (Some v), w') ->
  status = 200
  /\ exists fields items gif,
       body = Ret (JObj fields)
       /\ Py.lookup "results" fields = Some (JArr items)
       /\ In gif items
       /\ url_of gif = Ret v.
Proof.
  unfold gif_from_response.
  destruct (Z.eqb_spec status 200) as [-> | Hs]; [| discriminate].
  intros H. split; [reflexivity |].
  unfold mbind, M_bind, bind, lift in H.
  destruct body as [data | e]; [| discriminate H].
  destruct data as [| b | n | s | items | fields]; try discriminate H.
  cbn [Py.get Py.getitem] in H.
  destruct (Py.lookup "results" fields) as [r |] eqn:Hr;
    [| discriminate H].
  destruct (Py.truthy r) eqn:Htruthy; [| discriminate H].
  destruct r as [| b | n | s | items | fields'];
    cbn -[Z.ltb Z.of_nat nth Nat.modulo length String.length] in H;
    try discriminate H;
    (destruct (0 <? _) eqn:Hn in H; [| discriminate H]).
  - (* a string: the drawn character has no [get] *)
    destruct s as [| c s]; [discriminate H |].
    cbn -[Z.ltb Z.of_nat nth Nat.modulo length String.length] in H.
    discriminate H.
  - (* a list *)
    destruct items as [| g items]; [discriminate H |].
    unfold random_choice, mbind, M_bind, bind, randbelow, ret in H.
    set (gif := nth _ _ _) in H.
    exists fields, (g :: items), gif.
    split; [reflexivity |]. split; [exact Hr |].
    split.
    { subst gif. apply nth_In. apply Nat.mod_upper_bound. discriminate. }
    unfold url_of.
    destruct (Py.get gif "media_formats" (JObj [])) as [mf |];
      [| discriminate H].
    destruct (Py.get mf "gif" (JObj [])) as [gf |]; [| discriminate H].
    destruct (Py.get gf "url" JNull) as [u |]; [| discriminate H].
    now injection H as -> _.
  - (* a dict: an integer is not one of its keys *)
    destruct fields' as [| f fields']; [discriminate H |].
    cbn -[Z.ltb Z.of_nat nth Nat.modulo length String.length] in H.
    discriminate H.
Qed.

(** The request of [get_recommended_gif] when a key is configured. *)
Lemma get_recommended_gif_with_key (env : Env) (self : MemeRecommender)
    (q : json) (key : string) (w : world) :
  TENOR_API_KEY env = Some key -> key <> "" ->
  get_recommended_gif env self q w =
    try_except
      (match session_get env (tenor_base_url self) (tenor_params q key) with
       | HttpError e => raise e
       | HttpResponse status body =>
           returned ← gif_from_response status body;
           match returned with
           | Some v => ret v
           | None => choose_fallback self
           end
       end)
      (fun e => _ ← logging_error "Error fetching GIF" e; choose_fallback self)
      w.
Proof.
  intros Hkey Hne. unfold get_recommended_gif. rewrite Hkey.
  apply String.eqb_neq in Hne. now rewrite Hne.
Qed.

Lemma get_recommended_gif_without_key (env : Env) (self : MemeRecommender)
    (q : json) (w : world) :
  key_set (TENOR_API_KEY env) = false ->
  get_recommended_gif env self q w =
    try_except
      (choose_fallback self)
      (fun e => _ ← logging_error "Error fetching GIF" e; choose_fallback self)
      w.
Proof.
  intros Hkey. unfold get_recommended_gif, key_set in *.
  destruct (TENOR_API_KEY env) as [key |]; [| reflexivity].
  destruct (String.eqb key ""); [reflexivity | discriminate Hkey].
Qed.

(** A counterexample to C1 as stated: the service answers 200 with one
    result that carries no url, and the selection returns [None]. *)
Lemma selection_returns_none :
  fst (get_recommended_gif
         (env_search_reply (JObj [("results", JArr [JObj []])]))
         MemeRecommender_init (JStr "savage roast gif") world0)
    = Ret JNull
  /\ is_url_string JNull = false.
Proof. split; reflexivity. Qed.

(** C1 (amended).  For every search query, when the fallback list is not
    empty the selection returns and never raises.  The value is either a
    member of the fallback list, or, when the media search answered 200 with
    a dict whose results are a non-empty list, the url entry read off one of
    the results -- which is [None] when the result has no such entry, and is
    not checked to be a string. *)
Theorem get_recommended_gif_total (env : Env) (self : MemeRecommender)
    (search_query : json) (w : world) :
  fallback_gifs self <> [] ->
  exists v w',
    get_recommended_gif env self search_query w = (Ret v, w')
    /\ ((exists url, In url (fallback_gifs self) /\ v = JStr url)
        \/ (exists key fields items gif,
              TENOR_API_KEY env = Some key
              /\ key <> ""
              /\ session_get env (tenor_base_url self)
                   (tenor_params search_query key)
                 = HttpResponse 200 (Ret (JObj fields))
              /\ Py.lookup "results" fields = Some (JArr items)
              /\ In gif items
              /\ url_of gif = Ret v)).
Proof.
  intros Hgifs. rename search_query into q.
  assert (Hhandler : forall e w1,
            exists url, In url (fallback_gifs self)
              /\ (_ ← logging_error "Error fetching GIF" e;
                  choose_fallback self) w1
                 = (Ret (JStr url), drawn (logged w1 "Error fetching GIF" e))).
  { intros e w1.
    destruct (choose_fallback_ok self (logged w1 "Error fetching GIF" e) Hgifs)
      as [url [Hin Hrun]].
    exists url. split; [exact Hin |]. exact Hrun. }
  assert (Hplain : forall w1,
            exists v w', try_except (choose_fallback self)
                (fun e => _ ← logging_error "Error fetching GIF" e;
                          choose_fallback self) w1 = (Ret v, w')
              /\ exists url, In url (fallback_gifs self) /\ v = JStr url).
  { intros w1. destruct (choose_fallback_ok self w1 Hgifs) as [url [Hin Hrun]].
    exists (JStr url), (drawn w1). unfold try_except. rewrite Hrun.
    split; [reflexivity | now exists url]. }
  destruct (key_set (TENOR_API_KEY env)) eqn:Hset.
  2:{ rewrite get_recommended_gif_without_key by exact Hset.
      destruct (Hplain w) as [v [w' [Hrun Hv]]]. exists v, w'. now split; [| left]. }
  unfold key_set in Hset.
  destruct (TENOR_API_KEY env) as [key |] eqn:Hkey; [| discriminate Hset].
  apply negb_true_iff, String.eqb_neq in Hset.
  rewrite (get_recommended_gif_with_key env self q key w Hkey Hset).
  unfold try_except.
  destruct (session_get env (tenor_base_url self) (tenor_params q key))
    as [e | status body] eqn:Hget.
  { unfold raise. destruct (Hhandler e w) as [url [Hin Hrun]].
    rewrite Hrun. do 2 eexists. split; [reflexivity |]. left. now exists url. }
  unfold mbind, M_bind, bind.
  destruct (gif_from_response status body w) as [[[v |] | e] w1] eqn:Hresp.
  - apply gif_from_response_some in Hresp.
    destruct Hresp as [-> [fields [items [gif [-> [Hl [Hin Hurl]]]]]]].
    exists v, w1. split; [reflexivity |]. right.
    exists key, fields, items, gif. repeat split; assumption.
  - destruct (choose_fallback_ok self w1 Hgifs) as [url [Hin Hrun]].
    rewrite Hrun. do 2 eexists. split; [reflexivity |]. left. now exists url.
  - destruct (Hhandler e w1) as [url [Hin Hrun]].
    unfold mbind, M_bind, bind in Hrun. rewrite Hrun. do 2 eexists. split; [reflexivity |]. left. now exists url.
Qed.

Lemma get_recommended_gif_total_witness :
  let env := env_search_reply (JObj [("results", JArr [JObj []])]) in
  let self := MemeRecommender_init in
  let q := JStr "savage roast gif" in
  fallback_gifs self <> []
  /\ exists v w',
       get_recommended_gif env self q world0 = (Ret v, w')
       /\ ((exists url, In url (fallback_gifs self) /\ v = JStr url)
           \/ (exists key fields items gif,
                 TENOR_API_KEY env = Some key
                 /\ key <> ""
                 /\ session_get env (tenor_base_url self) (tenor_params q key)
                    = HttpResponse 200 (Ret (JObj fields))
                 /\ Py.lookup "results" fields = Some (JArr items)
                 /\ In gif items
                 /\ url_of gif = Ret v)).
Proof.
  split; [discriminate |].
  apply (get_recommended_gif_total
           (env_search_reply (JObj [("results", JArr [JObj []])]))
           MemeRecommender_init (JStr "savage roast gif") world0).
  discriminate.
Defined.

(** A result that carries a url: the url is returned. *)
Example selection_returns_url :
  let gif := JObj [("media_formats",
                    JObj [("gif", JObj [("url", JStr "https://media.tenor.com/abc.gif")])])] in
  fst (get_recommended_gif (env_search_reply (JObj [("results", JArr [gif])]))
         MemeRecommender_init (JStr "celebration victory gif") world0)
  = Ret (JStr "https://media.tenor.com/abc.gif").
Proof. reflexivity. Qed.

(** Replies of other shapes end in the fallback list: results that are a
    number, a result that is a string, a body that is a list. *)
Example selection_on_odd_replies :
  let first := Ret (JStr "https://media.tenor.com/example1.gif") in
  fst (get_recommended_gif
         (env_search_reply (JObj [("results", JNum (NInt 3))]))
         MemeRecommender_init (JStr "q") world0) = first
  /\ fst (get_recommended_gif
            (env_search_reply (JObj [("results", JArr [JStr "x"])]))
            MemeRecommender_init (JStr "q") world0) = first
  /\ fst (get_recommended_gif (env_search_reply (JArr []))
            MemeRecommender_init (JStr "q") world0) = first.
Proof. repeat split; reflexivity. Qed.

(** C6.  The recommender's fallback list has exactly three URLs.  For every
    query, without a media search credential the selection is a draw from
    that list; and when the service answers 200 with an empty result list
    the selection is the same draw from the same list. *)
Theorem fallback_without_key_or_results (env : Env) (search_query : json)
    (w : world) :
  let self := MemeRecommender_init in
  length (fallback_gifs self) = 3%nat
  /\ (exists url,
        In url (fallback_gifs self)
        /\ choose_fallback self w = (Ret (JStr url), drawn w))
  /\ (key_set (TENOR_API_KEY env) = false ->
      get_recommended_gif env self search_query w = choose_fallback self w)
  /\ (forall key fields,
        TENOR_API_KEY env = Some key ->
        key <> "" ->
        session_get env (tenor_base_url self) (tenor_params search_query key)
          = HttpResponse 200 (Ret (JObj fields)) ->
        Py.lookup "results" fields = Some (JArr []) ->
        get_recommended_gif env self search_query w = choose_fallback self w).
Proof.
  intros self.
  assert (Hgifs : fallback_gifs self <> []) by discriminate.
  destruct (choose_fallback_ok self w Hgifs) as [url [Hin Hrun]].
  split; [reflexivity |].
  split; [now exists url |].
  split.
  - intros Hkey. rewrite get_recommended_gif_without_key by exact Hkey.
    unfold try_except. now rewrite Hrun.
  - intros key fields Hkey Hne Hget Hres.
    rewrite (get_recommended_gif_with_key env self search_query key w Hkey Hne).
    unfold try_except. rewrite Hget.
    unfold gif_from_response, mbind, M_bind, bind, lift.
    cbn [Z.eqb Pos.eqb Py.get]. rewrite Hres. cbn [Py.truthy ret].
    now rewrite Hrun.
Qed.

(** Without a credential, and with an empty result list. *)
Example selection_fallback_examples :
  get_recommended_gif env_no_credentials MemeRecommender_init
    (JStr "reaction gif") world0
  = (Ret (JStr "https://media.tenor.com/example1.gif"), drawn world0)
  /\ get_recommended_gif (env_search_reply (JObj [("results", JArr [])]))
       MemeRecommender_init (JStr "reaction gif") world0
     = get_recommended_gif env_no_credentials MemeRecommender_init
         (JStr "reaction gif") world0.
Proof. split; reflexivity. Qed.

(** ** The manual command *)

(** C7.  With inline text that is not empty, the analysis of the manual
    command is the analyser's result on the list holding that text alone,
    whatever is buffered for the channel.  Without inline text, when the
    channel has no entry the analysis is the fixed one (mood "random",
    search query "funny reaction gif", confidence "manual") and the analyser
    is not called; otherwise it is the analyser's result on the contents of
    the last five buffered messages. *)
Theorem manual_command_analysis_input (analyze : list string -> M json)
    (channel_id : Z) (context : option string) (s : contexts) :
  (forall text,
     context = Some text -> text <> "" ->
     recommend_meme_analysis analyze channel_id context s = analyze [text])
  /\ (key_set context = false -> s !! channel_id = None ->
      recommend_meme_analysis analyze channel_id context s
      = ret (JObj [ ("mood", JStr "random");
                    ("search_query", JStr "funny reaction gif");
                    ("confidence", JStr "manual") ]))
  /\ (forall buf,
        key_set context = false -> s !! channel_id = Some buf ->
        recommend_meme_analysis analyze channel_id context s
        = analyze (map content (Py.last_n 5 buf))).
Proof.
  unfold recommend_meme_analysis, key_set. repeat split.
  - intros text -> Hne. apply String.eqb_neq in Hne. now rewrite Hne.
  - intros Hctx Hnone. rewrite Hnone.
    destruct context as [text |]; [| reflexivity].
    destruct (String.eqb text ""); [reflexivity | discriminate Hctx].
  - intros buf Hctx Hbuf. rewrite Hbuf.
    destruct context as [text |]; [| reflexivity].
    destruct (String.eqb text ""); [reflexivity | discriminate Hctx].
Qed.

(** The command with inline text on a channel whose buffer holds a roast:
    the analysis is the one of the inline text. *)
Example recommend_with_inline_text :
  let s := update_conversation_context 1 "bob" "you got roasted"
             (S754_zero false) ∅ in
  sent (snd (recommend_meme env_no_credentials 1 "ann"
               (Some "wow great job team") s world0))
  = [ SendEmbed
        (Embed "Meme Recommendation"
               ("**Mood:** Neutral" ++ nl ++ "**Search:** reaction gif")
               0xff6b6b
               (JStr "https://media.tenor.com/example1.gif")
               "Confidence: low | Requested by ann") ]
  /\ sent (snd (recommend_meme env_no_credentials 1 "ann" None s world0))
     = [ SendEmbed
           (Embed "Meme Recommendation"
                  ("**Mood:** Roast" ++ nl ++ "**Search:** savage burn gif")
                  0xff6b6b
                  (JStr "https://media.tenor.com/example1.gif")
                  "Confidence: low | Requested by ann") ]
  /\ sent (snd (recommend_meme env_no_credentials 2 "ann" None s world0))
     = [ SendEmbed
           (Embed "Meme Recommendation"
                  ("**Mood:** Random" ++ nl ++ "**Search:** funny reaction gif")
                  0xff6b6b
                  (JStr "https://media.tenor.com/example1.gif")
                  "Confidence: manual | Requested by ann") ].
Proof. intros s. repeat split; vm_compute; reflexivity. Qed.

(** * Further properties of the program *)

(** ** The dict of contexts *)

Lemma last_n_snoc {A} (n : nat) (l : list A) (x : A) :
  (0 < n)%nat -> Py.last_n n (l ++ [x]) = (Py.last_n (n - 1) l ++ [x])%list.
Proof.
  intros Hn. unfold Py.last_n. rewrite length_app. cbn [length].
  replace (length l + 1 - n)%nat with (length l - (n - 1))%nat by lia.
  apply drop_app_le. lia.
Qed.

Lemma last_n_last_n {A} (n k : nat) (l : list A) :
  (n <= k)%nat -> Py.last_n n (Py.last_n k l) = Py.last_n n l.
Proof.
  intros Hnk. unfold Py.last_n. rewrite length_drop, drop_drop.
  f_equal. lia.
Qed.

Lemma last_n_nonempty {A} (n : nat) (l : list A) :
  (0 < n)%nat -> l <> [] -> Py.last_n n l <> [].
Proof.
  intros Hn Hl Hnil. apply (f_equal length) in Hnil.
  unfold Py.last_n in Hnil. rewrite length_drop in Hnil. cbn in Hnil.
  destruct l; [congruence | cbn in Hnil; lia].
Qed.

(** X1.  Whatever the dict holds, after a message is recorded its channel
    has a buffer that ends with the new message, is not empty, has at most
    ten messages, and is what is left of the old buffer followed by the new
    message once the oldest ones are dropped. *)
Theorem update_keeps_newest (c : Z) (a t : string) (now : spec_float)
    (s : contexts) :
  let m := {| author := a; content := t; timestamp := now |} in
  exists buf,
    update_conversation_context c a t now s !! c = Some buf
    /\ last buf = Some m
    /\ (0 < length buf <= 10)%nat
    /\ exists dropped, (default [] (s !! c) ++ [m])%list = (dropped ++ buf)%list.
Proof.
  intros m. eexists. split; [apply update_lookup_eq |]. fold m.
  unfold MAX_CONTEXT_MESSAGES.
  rewrite last_n_snoc by lia. split; [apply last_snoc |].
  split.
  - rewrite length_app. cbn [length].
    pose proof (last_n_length (10 - 1) (default [] (s !! c))). lia.
  - destruct (last_n_suffix (10 - 1) (default [] (s !! c))) as [dropped Hd].
    exists dropped. rewrite Hd at 1. now rewrite <- app_assoc.
Qed.

(** A buffer longer than ten, which the program never builds, is cut back by
    the next record. *)
Example update_cuts_long_buffer :
  let m (text : string) :=
    {| author := "ann"; content := text; timestamp := S754_zero false |} in
  update_conversation_context 3 "ann" "new" (S754_zero false)
    {[ 3 := map m ["a"; "b"; "c"; "d"; "e"; "f"; "g"; "h"; "i"; "j"; "k"; "l"] ]}
    !! 3
  = Some (map m ["d"; "e"; "f"; "g"; "h"; "i"; "j"; "k"; "l"; "new"]).
Proof. intros m. rewrite update_lookup_eq. reflexivity. Qed.

Lemma entry_of_snoc (msgs : list Message) (m : Message) :
  Some (Py.last_n MAX_CONTEXT_MESSAGES (default [] (entry_of msgs) ++ [m]))
  = entry_of (msgs ++ [m]).
Proof.
  unfold entry_of. destruct msgs as [| x msgs]; [reflexivity |].
  cbn [from_option id app]. f_equal.
  change (x :: (msgs ++ [m])%list) with ((x :: msgs) ++ [m])%list.
  apply last_n_app.
Qed.

(** Running a history from a dict that holds, for every channel, the entry
    of the messages [acc] gives for it. *)
Lemma run_ops_lookup (ops : list store_op) :
  forall (s : contexts) (acc : Z -> list Message) (w : world),
    (forall c, s !! c = entry_of (acc c)) ->
    exists s' w',
      run_ops ops s w = (Ret s', w')
      /\ (forall c, s' !! c = entry_of (since_clear c ops (acc c)))
      /\ length (sent w') = (length (sent w) + clears ops)%nat
      /\ log w' = log w
      /\ rng w' = rng w.
Proof.
  induction ops as [| op ops IH]; intros s acc w Hs.
  - exists s, w. cbn. repeat split; [exact Hs | lia].
  - destruct op as [ch a t now | ch].
    + set (m := {| author := a; content := t; timestamp := now |}).
      set (acc' := fun c => if decide (ch = c) then (acc c ++ [m])%list
                            else acc c).
      destruct (IH (update_conversation_context ch a t now s) acc' w)
        as [s' [w' [Hrun [Hlook [Hsent [Hlog Hrng]]]]]].
      { intros c. subst acc'. cbn beta. destruct (decide (ch = c)) as [-> | Hne].
        - rewrite update_lookup_eq, Hs. apply entry_of_snoc.
        - rewrite update_lookup_ne by exact Hne. apply Hs. }
      exists s', w'. split; [exact Hrun |].
      split; [| now repeat split].
      intros c. rewrite Hlook. subst acc'. cbn beta. reflexivity.
    + set (acc' := fun c => if decide (ch = c) then [] else acc c).
      assert (Hclear : exists msg,
                 clear_context ch s w
                 = (Ret (delete ch s),
                    World (rng w) (log w) (sent w ++ [msg]))).
      { destruct (s !! ch) as [buf |] eqn:Hch.
        - eexists. exact (clear_context_present ch s w buf Hch).
        - eexists. rewrite (clear_context_absent ch s w Hch).
          now rewrite delete_id. }
      destruct Hclear as [msg Hclear].
      destruct (IH (delete ch s) acc'
                   (World (rng w) (log w) (sent w ++ [msg])))
        as [s' [w' [Hrun [Hlook [Hsent [Hlog Hrng]]]]]].
      { intros c. subst acc'. cbn beta. destruct (decide (ch = c)) as [-> | Hne].
        - apply lookup_delete_eq.
        - rewrite lookup_delete_ne by exact Hne. apply Hs. }
      exists s', w'. split.
      { cbn [run_ops apply_op]. unfold mbind, M_bind, bind.
        rewrite Hclear. exact Hrun. }
      split; [| split; [| now split]].
      * intros c. rewrite Hlook. subst acc'. cbn beta. reflexivity.
      * rewrite Hsent. cbn [sent clears]. rewrite length_app. cbn [length]. lia.
Qed.

(** X2.  A history of record and clear operations, run from the empty dict,
    never raises.  Afterwards every channel holds the last ten of the
    messages recorded for it since it was last cleared, in order, and has no
    entry when there is none; so every buffer in the dict is non-empty and
    has at most ten messages.  Each clear command sent exactly one notice,
    and nothing was logged. *)
Theorem history_buffers (ops : list store_op) (w : world) :
  exists s w',
    run_ops ops ∅ w = (Ret s, w')
    /\ (forall c, s !! c = entry_of (since_clear c ops []))
    /\ (forall c buf, s !! c = Some buf -> (0 < length buf <= 10)%nat)
    /\ length (sent w') = (length (sent w) + clears ops)%nat
    /\ log w' = log w.
Proof.
  destruct (run_ops_lookup ops ∅ (fun _ => []) w)
    as [s [w' [Hrun [Hlook [Hsent [Hlog _]]]]]].
  { intros c. apply lookup_empty. }
  exists s, w'. split; [exact Hrun |]. split; [exact Hlook |].
  split; [| now split].
  intros c buf Hbuf. rewrite Hlook in Hbuf. unfold entry_of in Hbuf.
  destruct (since_clear c ops []) as [| x msgs] eqn:Hmsgs; [discriminate |].
  injection Hbuf as <-. split.
  - assert (Hne : Py.last_n MAX_CONTEXT_MESSAGES (x :: msgs) <> []).
    { apply last_n_nonempty; [unfold MAX_CONTEXT_MESSAGES; lia | discriminate]. }
    destruct (Py.last_n MAX_CONTEXT_MESSAGES (x :: msgs));
      [congruence | cbn; lia].
  - apply last_n_length.
Qed.

(** Record, clear, record again: the channel restarts from the new
    message. *)
Example record_clear_record :
  let t := S754_zero false in
  exists s w,
    run_ops [ OpRecord 4 "ann" "one" t; OpRecord 4 "bob" "two" t;
              OpClear 4; OpClear 4; OpRecord 4 "ann" "three" t ] ∅ world0
    = (Ret s, w)
    /\ s !! 4 = Some [ {| author := "ann"; content := "three"; timestamp := t |} ]
    /\ sent w = [ SendText notice_cleared; SendText notice_nothing_to_clear ].
Proof. intros t. do 2 eexists. split; [reflexivity |]. split; reflexivity. Qed.

(** The buffer of a channel right after a record, and its last five. *)
Lemma last_five_after_update (c : Z) (a t : string) (now : spec_float)
    (s : contexts) :
  let m := {| author := a; content := t; timestamp := now |} in
  exists buf,
    update_conversation_context c a t now s !! c = Some buf
    /\ buf <> []
    /\ Py.last_n 5 buf = (Py.last_n 4 (default [] (s !! c)) ++ [m])%list.
Proof.
  intros m. eexists. split; [apply update_lookup_eq |]. fold m. split.
  - apply last_n_nonempty; [unfold MAX_CONTEXT_MESSAGES; lia |].
    now destruct (default [] (s !! c)).
  - rewrite last_n_last_n by (unfold MAX_CONTEXT_MESSAGES; lia).
    now rewrite last_n_snoc by lia.
Qed.

(** X3.  Right after a message is recorded, the show command on its channel
    never reports a missing context: it sends one embed whose description
    has a line per message for the last four messages of the old buffer
    followed by the new message, so at most five lines, the last of which is
    the line of the new message. *)
Theorem show_after_record (c : Z) (a t : string) (now : spec_float)
    (s : contexts) (w : world) :
  let m := {| author := a; content := t; timestamp := now |} in
  let shown := (Py.last_n 4 (default [] (s !! c)) ++ [m])%list in
  show_context c (update_conversation_context c a t now s) w
  = (Ret tt,
     World (rng w) (log w)
           (sent w ++ [ SendEmbed
                          (Embed "Recent Conversation Context"
                                 (PyStr.join nl (map context_line shown))
                                 0x3498db JNull "") ]))
  /\ (length shown <= 5)%nat
  /\ last (map context_line shown) = Some ("**" ++ a ++ ":** " ++ t).
Proof.
  intros m shown.
  destruct (last_five_after_update c a t now s) as [buf [Hbuf [Hne Hfive]]].
  fold m in Hfive. fold shown in Hfive.
  split; [| split].
  - unfold show_context. rewrite Hbuf.
    destruct buf as [| x buf]; [congruence |]. now rewrite Hfive.
  - subst shown. rewrite length_app. cbn [length].
    pose proof (last_n_length 4 (default [] (s !! c))). lia.
  - subst shown. rewrite map_app. cbn [map]. apply last_snoc.
Qed.

(** X4.  When the manual command runs without inline text on a dict in
    which a message of its channel has just been recorded -- as the message
    handler does with the command message itself before it processes
    commands -- the fixed manual analysis is not used: the analyser is called
    on at most five texts, the last of which is the recorded one. *)
Theorem manual_after_record (analyze : list string -> M json) (c : Z)
    (a t : string) (now : spec_float) (s : contexts)
    (context : option string) :
  key_set context = false ->
  exists input,
    recommend_meme_analysis analyze c context
      (update_conversation_context c a t now s)
    = analyze input
    /\ last input = Some t
    /\ (length input <= 5)%nat
    /\ input = (map content (Py.last_n 4 (default [] (s !! c))) ++ [t])%list.
Proof.
  intros Hctx.
  destruct (last_five_after_update c a t now s) as [buf [Hbuf [Hne Hfive]]].
  exists (map content (Py.last_n 4 (default [] (s !! c))) ++ [t])%list.
  split; [| split; [apply last_snoc | split; [| reflexivity]]].
  - unfold recommend_meme_analysis. rewrite Hbuf, Hfive, map_app. cbn [map content].
    unfold key_set in Hctx. destruct context as [text |]; [| reflexivity].
    destruct (String.eqb text ""); [reflexivity | discriminate Hctx].
  - rewrite length_app, length_map. cbn [length].
    pose proof (last_n_length 4 (default [] (s !! c))). lia.
Qed.

Lemma manual_after_record_witness :
  key_set None = false
  /\ exists input,
       recommend_meme_analysis (fun ms => ret (_fallback_analysis ms)) 9 None
         (update_conversation_context 9 "ann" "!meme" (S754_zero false) ∅)
       = (fun ms => ret (_fallback_analysis ms)) input
       /\ last input = Some "!meme"
       /\ (length input <= 5)%nat
       /\ input = (map content (Py.last_n 4 (default [] ((∅ : contexts) !! 9)))
                   ++ ["!meme"])%list.
Proof.
  split; [reflexivity |].
  apply (manual_after_record (fun ms => ret (_fallback_analysis ms)) 9
           "ann" "!meme" (S754_zero false) ∅ None).
  reflexivity.
Defined.

(** ** The keyword fallback, message by message *)

Lemma lower_app (a b : string) :
  PyStr.lower (a ++ b) = PyStr.lower a ++ PyStr.lower b.
Proof.
  induction a as [| x a IH]; [reflexivity |].
  rewrite app_cons. cbn [PyStr.lower]. now rewrite app_cons, IH.
Qed.

Lemma lower_char_idem (c : ascii) :
  PyStr.lower_char (PyStr.lower_char c) = PyStr.lower_char c.
Proof.
  destruct c as [[] [] [] [] [] [] [] []]; reflexivity.
Qed.

Lemma lower_idem (s : string) : PyStr.lower (PyStr.lower s) = PyStr.lower s.
Proof.
  induction s as [| c s IH]; [reflexivity |].
  cbn [PyStr.lower]. now rewrite lower_char_idem, IH.
Qed.

Lemma lower_join (ms : list string) :
  PyStr.lower (PyStr.join " " ms) = PyStr.join " " (map PyStr.lower ms).
Proof.
  induction ms as [| p [| q rest] IH]; [reflexivity | reflexivity |].
  change (PyStr.join " " (p :: q :: rest))
    with (p ++ " " ++ PyStr.join " " (q :: rest)).
  change (PyStr.join " " (map PyStr.lower (p :: q :: rest)))
    with (PyStr.lower p ++ " " ++ PyStr.join " " (map PyStr.lower (q :: rest))).
  now rewrite !lower_app, IH.
Qed.

(** X5.  The keyword fallback does not see letter case: two lists of
    messages that are equal once every message is lower-cased get the same
    analysis, and lower-casing the messages beforehand changes nothing. *)
Theorem fallback_ignores_case :
  (forall ms ms' : list string,
     map PyStr.lower ms = map PyStr.lower ms' ->
     _fallback_analysis ms = _fallback_analysis ms')
  /\ (forall ms : list string,
        _fallback_analysis (map PyStr.lower ms) = _fallback_analysis ms)
  /\ _fallback_analysis ["WHAT A Victory"; "GG"]
     = _fallback_analysis ["what a victory"; "gg"].
Proof.
  assert (H : forall ms ms' : list string,
             map PyStr.lower ms = map PyStr.lower ms' ->
             _fallback_analysis ms = _fallback_analysis ms').
  { intros ms ms' Heq. unfold _fallback_analysis.
    now rewrite !lower_join, Heq. }
  split; [exact H |]. split; [| reflexivity].
  intros ms. apply H. rewrite map_map. apply map_ext. intros m.
  apply lower_idem.
Qed.

(** A keyword without a space occurs in [a], a space, [b] only inside [a]
    or inside [b]. *)
Lemma occurs_in_across_space (w a b : string) :
  w <> "" -> ~ PyStr.occurs_in " " w ->
  PyStr.occurs_in w (a ++ " " ++ b) <->
  PyStr.occurs_in w a \/ PyStr.occurs_in w b.
Proof.
  intros Hw Hsp. split.
  - intros [pre [post H]].
    destruct (app_eq_split _ _ _ _ H) as [[m [Hpre Hm]] | [m [Ha Hm]]].
    + (* the occurrence starts after [a] has ended *)
      destruct m as [| x m].
      * rewrite app_nil_l in Hm. destruct w as [| y w]; [congruence |].
        rewrite app_cons in Hm. injection Hm as <- _.
        exfalso. apply Hsp. now exists "", w.
      * rewrite app_cons in Hm. injection Hm as _ Hb.
        right. now exists m, post.
    + (* the occurrence starts inside [a] *)
      symmetry in Hm.
      destruct (app_eq_split _ _ _ _ Hm) as [[m2 [Hm2 Hb]] | [m2 [Hw2 Hpost]]].
      * destruct m2 as [| x m2].
        -- rewrite append_nil_r in Hm2. left. exists pre, "".
           now rewrite append_nil_r, Ha, Hm2.
        -- rewrite app_cons in Hb. injection Hb as <- _.
           exfalso. apply Hsp. exists m, m2. exact Hm2.
      * left. exists pre, m2. now rewrite Ha, Hw2.
  - intros [[pre [post ->]] | [pre [post ->]]].
    + exists pre, (post ++ " " ++ b). now rewrite !append_assoc.
    + exists (a ++ " " ++ pre), post. now rewrite !append_assoc.
Qed.

Lemma occurs_in_empty (w : string) : w <> "" -> ~ PyStr.occurs_in w "".
Proof.
  intros Hw [pre [post H]]. destruct pre; [| discriminate H].
  destruct w; [congruence | discriminate H].
Qed.

(** A keyword without a space occurs in the space-joined text exactly when
    it occurs in one of the messages. *)
Lemma occurs_in_join (w : string) (ms : list string) :
  w <> "" -> ~ PyStr.occurs_in " " w ->
  PyStr.occurs_in w (PyStr.join " " ms) <->
  exists m, In m ms /\ PyStr.occurs_in w m.
Proof.
  intros Hw Hsp. induction ms as [| p [| q rest] IH].
  - split; [intros H; now apply occurs_in_empty in H | intros [m [[] _]]].
  - cbn [PyStr.join]. split.
    + intros H. exists p. split; [now left | exact H].
    + intros [m [[<- | []] H]]. exact H.
  - change (PyStr.join " " (p :: q :: rest))
      with (p ++ " " ++ PyStr.join " " (q :: rest)).
    rewrite occurs_in_across_space by assumption. rewrite IH. split.
    + intros [H | [m [Hin H]]].
      * exists p. split; [now left | exact H].
      * exists m. split; [now right | exact H].
    + intros [m [[<- | Hin] H]]; [now left | right; now exists m].
Qed.

(** The keywords of the three lists are not empty and hold no space. *)
Lemma keywords_plain (w : string) :
  In w (roast_words ++ celebration_words ++ chaos_words)%list ->
  w <> "" /\ ~ PyStr.occurs_in " " w.
Proof.
  intros Hin. cbn in Hin.
  repeat (destruct Hin as [<- | Hin];
          [split; [discriminate | now apply not_contains] |]).
  destruct Hin.
Qed.

Lemma hits_join (words : list string) (ms : list string) :
  (forall w, In w words -> w <> "" /\ ~ PyStr.occurs_in " " w) ->
  hits words (PyStr.lower (PyStr.join " " ms)) <->
  exists m, In m ms /\ hits words (PyStr.lower m).
Proof.
  intros Hplain. rewrite lower_join. unfold hits. split.
  - intros [w [Hw Hocc]]. destruct (Hplain w Hw) as [Hne Hsp].
    apply occurs_in_join in Hocc; [| assumption | assumption].
    destruct Hocc as [m' [Hin Hocc]]. apply in_map_iff in Hin.
    destruct Hin as [m [<- Hin]]. exists m. split; [exact Hin |].
    now exists w.
  - intros [m [Hin [w [Hw Hocc]]]]. destruct (Hplain w Hw) as [Hne Hsp].
    exists w. split; [exact Hw |]. apply occurs_in_join; [assumption.. |].
    exists (PyStr.lower m). split; [now apply in_map | exact Hocc].
Qed.

Lemma roast_plain (w : string) :
  In w roast_words -> w <> "" /\ ~ PyStr.occurs_in " " w.
Proof. intros H. apply keywords_plain. apply in_or_app. now left. Qed.

Lemma celebration_plain (w : string) :
  In w celebration_words -> w <> "" /\ ~ PyStr.occurs_in " " w.
Proof.
  intros H. apply keywords_plain. apply in_or_app. right.
  apply in_or_app. now left.
Qed.

Lemma chaos_plain (w : string) :
  In w chaos_words -> w <> "" /\ ~ PyStr.occurs_in " " w.
Proof.
  intros H. apply keywords_plain. apply in_or_app. right.
  apply in_or_app. now right.
Qed.

(** The same for any lowering that goes through the join message by
    message. *)
Lemma hits_join_with (str_lower : string -> string) (words : list string)
    (ms : list string) :
  lowers_by_message str_lower ->
  (forall w, In w words -> w <> "" /\ ~ PyStr.occurs_in " " w) ->
  hits words (str_lower (PyStr.join " " ms)) <->
  exists m, In m ms /\ hits words (str_lower m).
Proof.
  intros Hjoin Hplain. rewrite Hjoin. unfold hits. split.
  - intros [w [Hw Hocc]]. destruct (Hplain w Hw) as [Hne Hsp].
    apply occurs_in_join in Hocc; [| assumption | assumption].
    destruct Hocc as [m' [Hin Hocc]]. apply in_map_iff in Hin.
    destruct Hin as [m [<- Hin]]. exists m. split; [exact Hin |].
    now exists w.
  - intros [m [Hin [w [Hw Hocc]]]]. destruct (Hplain w Hw) as [Hne Hsp].
    exists w. split; [exact Hw |]. apply occurs_in_join; [assumption.. |].
    exists (str_lower m). split; [now apply in_map | exact Hocc].
Qed.

(** The ASCII case mapping goes through the join message by message. *)
Lemma lowers_by_message_lower : lowers_by_message PyStr.lower.
Proof. intros ms. apply lower_join. Qed.

(** X6.  A keyword never matches across two messages: with a [str.lower]
    that goes through the space-join message by message, each bucket test on
    the joined text holds exactly when one single message, lower-cased,
    contains a keyword of the bucket.  So the result is roast exactly when
    some message contains a roast keyword, and neutral exactly when no
    message contains any keyword. *)
Theorem fallback_by_message (str_lower : string -> string)
    (ms : list string) :
  lowers_by_message str_lower ->
  let text := str_lower (PyStr.join " " ms) in
  (hits roast_words text <->
     exists m, In m ms /\ hits roast_words (str_lower m))
  /\ (hits celebration_words text <->
       exists m, In m ms /\ hits celebration_words (str_lower m))
  /\ (hits chaos_words text <->
       exists m, In m ms /\ hits chaos_words (str_lower m))
  /\ (_fallback_analysis_with str_lower ms = roast_analysis <->
       exists m, In m ms /\ hits roast_words (str_lower m))
  /\ (_fallback_analysis_with str_lower ms = neutral_analysis <->
       forall m, In m ms ->
         ~ hits roast_words (str_lower m)
         /\ ~ hits celebration_words (str_lower m)
         /\ ~ hits chaos_words (str_lower m)).
Proof.
  intros Hjoin text.
  pose proof (hits_join_with str_lower roast_words ms Hjoin roast_plain)
    as Hr.
  pose proof (hits_join_with str_lower celebration_words ms Hjoin
                celebration_plain) as Hc.
  pose proof (hits_join_with str_lower chaos_words ms Hjoin chaos_plain)
    as Hx.
  fold text in Hr, Hc, Hx.
  split; [exact Hr |]. split; [exact Hc |]. split; [exact Hx |].
  assert (Hrc : roast_analysis <> celebration_analysis) by discriminate.
  assert (Hrx : roast_analysis <> chaos_analysis) by discriminate.
  assert (Hrn : roast_analysis <> neutral_analysis) by discriminate.
  assert (Hcn : celebration_analysis <> neutral_analysis) by discriminate.
  assert (Hxn : chaos_analysis <> neutral_analysis) by discriminate.
  destruct (fallback_with_cases str_lower ms)
    as [[H1 E] | [[H1 [H2 E]] | [[H1 [H2 [H3 E]]] | [H1 [H2 [H3 E]]]]]];
    fold text in H1; try fold text in H2; try fold text in H3; rewrite E.
  - split; [split; [intros _; now apply Hr | reflexivity] |].
    split; [intros Hn; congruence |].
    intros Hall. exfalso. apply Hr in H1. destruct H1 as [m [Hin Hm]].
    now destruct (Hall m Hin).
  - split; [split; [intros Hn; congruence | intros Hm; apply Hr in Hm; tauto] |].
    split; [intros Hn; congruence |].
    intros Hall. exfalso. apply Hc in H2. destruct H2 as [m [Hin Hm]].
    destruct (Hall m Hin) as [_ [Hno _]]. tauto.
  - split; [split; [intros Hn; congruence | intros Hm; apply Hr in Hm; tauto] |].
    split; [intros Hn; congruence |].
    intros Hall. exfalso. apply Hx in H3. destruct H3 as [m [Hin Hm]].
    destruct (Hall m Hin) as [_ [_ Hno]]. tauto.
  - split; [split; [intros Hn; congruence | intros Hm; apply Hr in Hm; tauto] |].
    split; [| reflexivity]. intros _ m Hin. repeat split; intros Hm.
    + apply H1, Hr. now exists m.
    + apply H2, Hc. now exists m.
    + apply H3, Hx. now exists m.
Qed.

Lemma fallback_by_message_witness :
  let ms := ["you got ro"; "asted"; "GG"] in
  lowers_by_message PyStr.lower
  /\ ((hits roast_words (PyStr.lower (PyStr.join " " ms)) <->
         exists m, In m ms /\ hits roast_words (PyStr.lower m))
      /\ (hits celebration_words (PyStr.lower (PyStr.join " " ms)) <->
           exists m, In m ms /\ hits celebration_words (PyStr.lower m))
      /\ (hits chaos_words (PyStr.lower (PyStr.join " " ms)) <->
           exists m, In m ms /\ hits chaos_words (PyStr.lower m))
      /\ (_fallback_analysis_with PyStr.lower ms = roast_analysis <->
           exists m, In m ms /\ hits roast_words (PyStr.lower m))
      /\ (_fallback_analysis_with PyStr.lower ms = neutral_analysis <->
           forall m, In m ms ->
             ~ hits roast_words (PyStr.lower m)
             /\ ~ hits celebration_words (PyStr.lower m)
             /\ ~ hits chaos_words (PyStr.lower m))).
Proof.
  split; [exact lowers_by_message_lower |].
  exact (fallback_by_message PyStr.lower ["you got ro"; "asted"; "GG"]
           lowers_by_message_lower).
Defined.

(** A keyword cut in two by a message boundary does not count. *)
Example keyword_across_messages :
  _fallback_analysis ["you got ro"; "asted"] = neutral_analysis
  /\ _fallback_analysis ["you got roasted"] = roast_analysis.
Proof. split; reflexivity. Qed.

(** X7.  The analysis does not depend on the order of the messages nor on
    repetitions: two lists with the same messages get the same analysis. *)
Theorem fallback_ignores_order (ms ms' : list string) :
  (forall m, In m ms <-> In m ms') ->
  _fallback_analysis ms = _fallback_analysis ms'.
Proof.
  intros Hsame.
  assert (Hbool : forall words,
             (forall w, In w words -> w <> "" /\ ~ PyStr.occurs_in " " w) ->
             any_word_in words (PyStr.lower (PyStr.join " " ms))
             = any_word_in words (PyStr.lower (PyStr.join " " ms'))).
  { intros words Hplain.
    assert (Hiff : hits words (PyStr.lower (PyStr.join " " ms))
                   <-> hits words (PyStr.lower (PyStr.join " " ms'))).
    { rewrite !hits_join by exact Hplain.
      split; intros [m [Hin Hm]]; exists m; split;
        try exact Hm; now apply Hsame. }
    rewrite <- !any_word_in_spec in Hiff.
    destruct (any_word_in words (PyStr.lower (PyStr.join " " ms)));
      destruct (any_word_in words (PyStr.lower (PyStr.join " " ms')));
      try reflexivity; destruct Hiff as [H1 H2];
      [now specialize (H1 eq_refl) | now specialize (H2 eq_refl)]. }
  unfold _fallback_analysis.
  rewrite (Hbool roast_words roast_plain),
          (Hbool celebration_words celebration_plain),
          (Hbool chaos_words chaos_plain).
  reflexivity.
Qed.

Lemma fallback_ignores_order_witness :
  (forall m, In m ["we win"; "total chaos"; "we win"]
             <-> In m ["total chaos"; "we win"])
  /\ _fallback_analysis ["we win"; "total chaos"; "we win"]
     = _fallback_analysis ["total chaos"; "we win"].
Proof.
  assert (H : forall m, In m ["we win"; "total chaos"; "we win"]
                        <-> In m ["total chaos"; "we win"])
    by (intros m; cbn; tauto).
  split; [exact H |].
  apply (fallback_ignores_order ["we win"; "total chaos"; "we win"]
           ["total chaos"; "we win"]).
  exact H.
Defined.

(** ** Extraction, read forwards *)

Lemma find_char_app (c : ascii) (pre rest : string) :
  PyStr.contains (String c "") pre = false ->
  PyStr.find (String c "") (pre ++ String c rest)
  = Z.of_nat (String.length pre).
Proof.
  induction pre as [| x pre IH]; intros Hpre.
  - rewrite app_nil_l. cbn [PyStr.find PyStr.startswith].
    now rewrite Ascii.eqb_refl.
  - rewrite contains_char_cons in Hpre. apply orb_false_iff in Hpre.
    destruct Hpre as [Hx Hpre]. rewrite app_cons.
    cbn [PyStr.find PyStr.startswith]. rewrite Hx. cbn [andb].
    rewrite (IH Hpre).
    destruct (Z.ltb_spec (Z.of_nat (String.length pre)) 0); [lia |].
    cbn [String.length]. lia.
Qed.

Lemma rfind_char_absent (c : ascii) (t : string) :
  PyStr.contains (String c "") t = false -> PyStr.rfind (String c "") t = -1.
Proof.
  induction t as [| x t IH]; intros Ht; [reflexivity |].
  rewrite contains_char_cons in Ht. apply orb_false_iff in Ht.
  destruct Ht as [Hx Ht]. cbn [PyStr.rfind PyStr.startswith].
  rewrite (IH Ht), Hx. reflexivity.
Qed.

Lemma rfind_char_app (c : ascii) (pre post : string) :
  PyStr.contains (String c "") post = false ->
  PyStr.rfind (String c "") (pre ++ String c post)
  = Z.of_nat (String.length pre).
Proof.
  intros Hpost. induction pre as [| x pre IH].
  - rewrite app_nil_l. cbn [PyStr.rfind PyStr.startswith].
    rewrite (rfind_char_absent c post Hpost), Ascii.eqb_refl. reflexivity.
  - rewrite app_cons. cbn [PyStr.rfind]. rewrite IH.
    destruct (Z.leb_spec 0 (Z.of_nat (String.length pre))); [| lia].
    cbn [String.length]. lia.
Qed.

(** A reply made of prose without an opening brace, an object, and prose
    without a closing brace: the object is what goes to the decoder. *)
Lemma extract_object_between (pre body post : string) :
  PyStr.contains "{" pre = false ->
  PyStr.contains "}" post = false ->
  extract_json_str (pre ++ "{" ++ body ++ "}" ++ post)
  = Ret ("{" ++ body ++ "}").
Proof.
  intros Hpre Hpost. unfold extract_json_str.
  assert (Ho : PyStr.contains "{" (pre ++ "{" ++ body ++ "}" ++ post) = true).
  { rewrite contains_char_app.
    change ("{" ++ body ++ "}" ++ post) with (String "{" (body ++ "}" ++ post)).
    rewrite contains_char_cons, Ascii.eqb_refl. now rewrite orb_true_r. }
  assert (Hc : PyStr.contains "}" (pre ++ "{" ++ body ++ "}" ++ post) = true).
  { rewrite <- (append_assoc "{" body), <- (append_assoc pre).
    rewrite contains_char_app.
    change ("}" ++ post) with (String "}" post).
    rewrite contains_char_cons, Ascii.eqb_refl. now rewrite orb_true_r. }
  assert (Hf : PyStr.find "{" (pre ++ "{" ++ body ++ "}" ++ post)
               = Z.of_nat (String.length pre))
    by exact (find_char_app "{" pre (body ++ "}" ++ post) Hpre).
  assert (Hr : PyStr.rfind "}" (pre ++ "{" ++ body ++ "}" ++ post)
               = Z.of_nat (String.length (pre ++ "{" ++ body))).
  { replace (pre ++ "{" ++ body ++ "}" ++ post)
      with ((pre ++ "{" ++ body) ++ String "}" post)
      by (now rewrite !append_assoc).
    now apply rfind_char_app. }
  rewrite Ho, Hc, Hf, Hr. cbn [andb]. f_equal.
  rewrite <- (append_assoc body "}" post), <- (append_assoc "{" _ post).
  replace (Z.of_nat (String.length (pre ++ "{" ++ body)) + 1)
    with (Z.of_nat (String.length pre + String.length ("{" ++ body ++ "}"))).
  - apply slice_middle.
  - rewrite !length_app_str. cbn [String.length]. lia.
Qed.

(** X8.  Prose around one object is stripped: when the text before the
    object has no opening brace and the text after it has no closing brace,
    the object alone is handed to the decoder, whatever braces its body
    holds; and extracting again from what was extracted changes nothing. *)
Theorem extract_strips_prose (pre body post : string) :
  ~ PyStr.occurs_in "{" pre ->
  ~ PyStr.occurs_in "}" post ->
  extract_json_str (pre ++ "{" ++ body ++ "}" ++ post)
  = Ret ("{" ++ body ++ "}")
  /\ extract_json_str ("{" ++ body ++ "}") = Ret ("{" ++ body ++ "}").
Proof.
  intros Hpre Hpost. apply not_contains in Hpre. apply not_contains in Hpost.
  split; [now apply extract_object_between |].
  pose proof (extract_object_between "" body "" eq_refl eq_refl) as H.
  rewrite app_nil_l in H.
  replace ("{" ++ body ++ "}" ++ "") with ("{" ++ body ++ "}") in H
    by (now rewrite (append_nil_r "}")).
  exact H.
Qed.

Lemma extract_strips_prose_witness :
  ~ PyStr.occurs_in "{" "Here you go: "
  /\ ~ PyStr.occurs_in "}" " Enjoy!"
  /\ (extract_json_str ("Here you go: " ++ "{" ++ "a: {b}" ++ "}" ++ " Enjoy!")
      = Ret ("{" ++ "a: {b}" ++ "}")
      /\ extract_json_str ("{" ++ "a: {b}" ++ "}") = Ret ("{" ++ "a: {b}" ++ "}")).
Proof.
  assert (H1 : ~ PyStr.occurs_in "{" "Here you go: ")
    by (apply not_contains; reflexivity).
  assert (H2 : ~ PyStr.occurs_in "}" " Enjoy!")
    by (apply not_contains; reflexivity).
  split; [exact H1 |]. split; [exact H2 |].
  exact (extract_strips_prose "Here you go: " "a: {b}" " Enjoy!" H1 H2).
Defined.

(** ** What the analysis does besides returning *)

(** X9.  Analysing a conversation never sends a message and never draws
    from the random generator.  Without a reasoning credential it returns
    the keyword fallback's result and logs nothing; when the primary path
    returns it returns that value and logs nothing; when the primary path
    raises, the log grows by exactly two records of the same exception, the
    first written by the primary path and the second by the caller, and the
    result is the keyword fallback's. *)
Theorem analyze_effects (env : Env) (messages : list string) (w : world) :
  let r := fst (analyze_conversation_mood env messages w) in
  let w' := snd (analyze_conversation_mood env messages w) in
  rng w' = rng w
  /\ sent w' = sent w
  /\ (key_set (GEMINI_API_KEY env) = false ->
      r = Ret (_fallback_analysis messages) /\ log w' = log w)
  /\ (forall v,
        key_set (GEMINI_API_KEY env) = true ->
        fst (_analyze_with_gemini env messages w) = Ret v ->
        r = Ret v /\ log w' = log w)
  /\ (forall e,
        key_set (GEMINI_API_KEY env) = true ->
        fst (_analyze_with_gemini env messages w) = Raise e ->
        r = Ret (_fallback_analysis messages)
        /\ log w' = (log w ++ [ LogError "Gemini analysis failed" e;
                                LogError "Error analyzing conversation" e ])%list).
Proof.
  cbv zeta. rewrite analyze_run.
  destruct (key_set (GEMINI_API_KEY env)).
  2:{ cbn [fst snd]. repeat split; try discriminate. }
  rewrite analyze_with_gemini_run.
  assert (Hfail : forall e,
            rng (logged (logged w "Gemini analysis failed" e)
                        "Error analyzing conversation" e) = rng w
            /\ sent (logged (logged w "Gemini analysis failed" e)
                        "Error analyzing conversation" e) = sent w
            /\ log (logged (logged w "Gemini analysis failed" e)
                        "Error analyzing conversation" e)
               = (log w ++ [ LogError "Gemini analysis failed" e;
                             LogError "Error analyzing conversation" e ])%list).
  { intros e. cbn. now rewrite <- app_assoc. }
  assert (Hraise : forall e,
            let run := (Ret (_fallback_analysis messages),
                        logged (logged w "Gemini analysis failed" e)
                               "Error analyzing conversation" e) in
            rng (snd run) = rng w
            /\ sent (snd run) = sent w
            /\ (true = false ->
                fst run = Ret (_fallback_analysis messages)
                /\ log (snd run) = log w)
            /\ (forall v, true = true -> @Raise json e = Ret v ->
                          fst run = Ret v /\ log (snd run) = log w)
            /\ (forall e', true = true -> @Raise json e = Raise e' ->
                   fst run = Ret (_fallback_analysis messages)
                   /\ log (snd run)
                      = (log w ++ [ LogError "Gemini analysis failed" e';
                                    LogError "Error analyzing conversation" e' ])%list)).
  { intros e run. subst run. cbn [fst snd].
    destruct (Hfail e) as [H1 [H2 H3]].
    split; [exact H1 |]. split; [exact H2 |].
    split; [discriminate |]. split; [discriminate |].
    intros e' _ He. injection He as <-. now split. }
  destruct (generate_content env _) as [text | e]; [| exact (Hraise e)].
  destruct (extract_json_str text) as [json_str | e]; [| exact (Hraise e)].
  destruct (json_loads env json_str) as [v | e]; [| exact (Hraise e)].
  cbn [fst snd]. split; [reflexivity |]. split; [reflexivity |].
  split; [discriminate |]. split.
  - intros v' _ Hv. injection Hv as <-. now split.
  - intros e _ He. discriminate He.
Qed.

(** A reply without braces: both handlers log the ValueError. *)
Example analyze_logs_twice :
  let env := {| GEMINI_API_KEY := Some "g-key";
                TENOR_API_KEY := None;
                json_loads := loads_empty_object;
                generate_content := fun _ => Ret "I cannot answer that.";
                session_get := fun _ _ => HttpError (ServiceError "media search");
                py_str := fun _ => "?" |} in
  analyze_conversation_mood env ["total chaos"] world0
  = (Ret chaos_analysis,
     World (fun _ => 0%nat)
           [ LogError "Gemini analysis failed"
                      (ValueError "Invalid response format");
             LogError "Error analyzing conversation"
                      (ValueError "Invalid response format") ]
           []).
Proof. reflexivity. Qed.

(** ** What the computations send *)

Lemma quiet_ret {A} (a : A) : quiet (ret a).
Proof. intros w. reflexivity. Qed.

Lemma quiet_raise {A} (e : exn) : quiet (@raise A e).
Proof. intros w. reflexivity. Qed.

Lemma quiet_lift {A} (r : result A) : quiet (lift r).
Proof. intros w. reflexivity. Qed.

Lemma quiet_logging_error (text : string) (e : exn) :
  quiet (logging_error text e).
Proof. intros w. reflexivity. Qed.

Lemma quiet_randbelow (n : nat) : quiet (randbelow n).
Proof. intros w. reflexivity. Qed.

Lemma quiet_bind {A B} (m : M A) (k : A -> M B) :
  quiet m -> (forall a, quiet (k a)) -> quiet (m ≫= k).
Proof.
  intros Hm Hk w. unfold mbind, M_bind, bind.
  specialize (Hm w). destruct (m w) as [[a | e] w1]; cbn [snd] in *.
  - now rewrite Hk.
  - exact Hm.
Qed.

Lemma quiet_try {A} (m : M A) (h : exn -> M A) :
  quiet m -> (forall e, quiet (h e)) -> quiet (try_except m h).
Proof.
  intros Hm Hh w. unfold try_except.
  specialize (Hm w). destruct (m w) as [[a | e] w1]; cbn [snd] in *.
  - exact Hm.
  - now rewrite Hh.
Qed.

Lemma quiet_random_choice {A} (seq : list A) : quiet (random_choice seq).
Proof.
  destruct seq as [| x seq]; [apply quiet_raise |].
  apply quiet_bind; [apply quiet_randbelow | intros i; apply quiet_ret].
Qed.

Lemma quiet_choice (v : json) : quiet (Py.choice v).
Proof.
  destruct v as [| b | n | s | items | fields]; try apply quiet_raise.
  - destruct s as [| c s]; [apply quiet_raise |].
    apply quiet_bind; [apply quiet_randbelow | intros i; apply quiet_ret].
  - apply quiet_random_choice.
  - destruct fields as [| f fields]; [apply quiet_raise |].
    apply quiet_bind; [apply quiet_randbelow | intros i; apply quiet_raise].
Qed.

Lemma quiet_choose_fallback (self : MemeRecommender) :
  quiet (choose_fallback self).
Proof.
  apply quiet_bind; [apply quiet_random_choice | intros url; apply quiet_ret].
Qed.

Lemma quiet_gif_from_response (status : Z) (body : result json) :
  quiet (gif_from_response status body).
Proof.
  unfold gif_from_response. destruct (status =? 200); [| apply quiet_ret].
  apply quiet_bind; [apply quiet_lift | intros data].
  apply quiet_bind; [apply quiet_lift | intros results].
  apply quiet_bind.
  - destruct (Py.truthy results); [| apply quiet_ret].
    apply quiet_bind; [apply quiet_lift | intros r].
    apply quiet_bind; [apply quiet_lift | intros n; apply quiet_ret].
  - intros [|]; [| apply quiet_ret].
    apply quiet_bind; [apply quiet_lift | intros r].
    apply quiet_bind; [apply quiet_choice | intros gif].
    repeat (apply quiet_bind; [apply quiet_lift | intros ?]).
    apply quiet_ret.
Qed.

Lemma quiet_get_recommended_gif (env : Env) (self : MemeRecommender)
    (q : json) : quiet (get_recommended_gif env self q).
Proof.
  unfold get_recommended_gif. apply quiet_try.
  - destruct (TENOR_API_KEY env) as [key |]; [| apply quiet_choose_fallback].
    destruct (String.eqb key ""); [apply quiet_choose_fallback |].
    destruct (session_get env _ _) as [e | status body]; [apply quiet_raise |].
    apply quiet_bind; [apply quiet_gif_from_response |].
    intros [v |]; [apply quiet_ret | apply quiet_choose_fallback].
  - intros e. apply quiet_bind; [apply quiet_logging_error |].
    intros _. apply quiet_choose_fallback.
Qed.

Lemma quiet_analyze (env : Env) (messages : list string) :
  quiet (analyze_conversation_mood env messages).
Proof.
  unfold analyze_conversation_mood. apply quiet_try.
  - destruct (key_set (GEMINI_API_KEY env)); [| apply quiet_ret].
    unfold _analyze_with_gemini. apply quiet_try.
    + repeat (apply quiet_bind; [apply quiet_lift | intros ?]).
      apply quiet_lift.
    + intros e. apply quiet_bind; [apply quiet_logging_error |].
      intros _. apply quiet_raise.
  - intros e. apply quiet_bind; [apply quiet_logging_error |].
    intros _. apply quiet_ret.
Qed.

Lemma once_send (P : outmsg -> Prop) (msg : outmsg) :
  P msg -> once P (send msg).
Proof. intros HP w. cbn. now exists msg. Qed.

Lemma once_bind {A B} (P : outmsg -> Prop) (m : M A) (k : A -> M B) :
  quiet m -> (forall a, once P (k a)) -> once P (m ≫= k).
Proof.
  intros Hm Hk w. unfold mbind, M_bind, bind.
  specialize (Hm w). destruct (m w) as [[a | e] w1]; cbn [snd] in Hm.
  - specialize (Hk a w1). destruct (k a w1) as [[b | e] w2].
    + destruct Hk as [msg [Hs HP]]. exists msg. now rewrite Hs, Hm.
    + congruence.
  - exact Hm.
Qed.

Lemma at_most_once_of_quiet {A} (P : outmsg -> Prop) (m : M A) :
  quiet m -> at_most_once P m.
Proof.
  intros Hm w. specialize (Hm w).
  destruct (m w) as [[a | e] w1]; cbn [snd] in Hm; [now left | exact Hm].
Qed.

Lemma at_most_once_of_once {A} (P : outmsg -> Prop) (m : M A) :
  once P m -> at_most_once P m.
Proof.
  intros Hm w. specialize (Hm w).
  destruct (m w) as [[a | e] w1]; [now right | exact Hm].
Qed.

Lemma at_most_once_bind {A B} (P : outmsg -> Prop) (m : M A) (k : A -> M B) :
  quiet m -> (forall a, at_most_once P (k a)) -> at_most_once P (m ≫= k).
Proof.
  intros Hm Hk w. unfold mbind, M_bind, bind.
  specialize (Hm w). destruct (m w) as [[a | e] w1]; cbn [snd] in Hm.
  - specialize (Hk a w1). destruct (k a w1) as [[b | e] w2].
    + destruct Hk as [Hs | [msg [Hs HP]]]; [left; congruence |].
      right. exists msg. now rewrite Hs, Hm.
    + congruence.
  - exact Hm.
Qed.

(** The steps of a command from the analysis to the message: each of them
    is silent, and the last one sends. *)
Lemma reply_steps_once (env : Env) (P : outmsg -> Prop)
    (make : string -> json -> json -> json -> outmsg) (analysis : json)
    (otherwise : M unit) :
  (forall title sq conf gif_url,
     Py.truthy gif_url = true -> P (make title sq conf gif_url)) ->
  once P otherwise ->
  once P
    (search_query ← lift (Py.getitem analysis "search_query");
     gif_url ← get_recommended_gif env MemeRecommender_init search_query;
     if Py.truthy gif_url then
       mood ← lift (Py.getitem analysis "mood");
       mood_title ← lift (Py.title mood);
       search_query' ← lift (Py.getitem analysis "search_query");
       confidence ← lift (Py.getitem analysis "confidence");
       send (make mood_title search_query' confidence gif_url)
     else otherwise).
Proof.
  intros Hmake Hother.
  apply once_bind; [apply quiet_lift | intros sq].
  apply once_bind; [apply quiet_get_recommended_gif | intros gif_url].
  destruct (Py.truthy gif_url) eqn:Htruthy; [| exact Hother].
  repeat (apply once_bind; [apply quiet_lift | intros ?]).
  apply once_send. now apply Hmake.
Qed.

Lemma reply_steps_at_most_once (env : Env) (P : outmsg -> Prop)
    (make : string -> json -> json -> json -> outmsg) (analysis : json) :
  (forall title sq conf gif_url,
     Py.truthy gif_url = true -> P (make title sq conf gif_url)) ->
  at_most_once P
    (search_query ← lift (Py.getitem analysis "search_query");
     gif_url ← get_recommended_gif env MemeRecommender_init search_query;
     if Py.truthy gif_url then
       mood ← lift (Py.getitem analysis "mood");
       mood_title ← lift (Py.title mood);
       search_query' ← lift (Py.getitem analysis "search_query");
       confidence ← lift (Py.getitem analysis "confidence");
       send (make mood_title search_query' confidence gif_url)
     else ret tt).
Proof.
  intros Hmake.
  apply at_most_once_bind; [apply quiet_lift | intros sq].
  apply at_most_once_bind; [apply quiet_get_recommended_gif | intros gif_url].
  destruct (Py.truthy gif_url) eqn:Htruthy;
    [| apply at_most_once_of_quiet, quiet_ret].
  repeat (apply at_most_once_bind; [apply quiet_lift | intros ?]).
  apply at_most_once_of_once, once_send. now apply Hmake.
Qed.

Lemma quiet_recommend_meme_analysis (env : Env) (c : Z)
    (context : option string) (s : contexts) :
  quiet (recommend_meme_analysis (analyze_conversation_mood env) c context s).
Proof.
  unfold recommend_meme_analysis.
  assert (Hbuf : quiet match s !! c with
                       | Some buf =>
                           analyze_conversation_mood env
                             (map content (Py.last_n 5 buf))
                       | None => ret manual_analysis
                       end).
  { destruct (s !! c); [apply quiet_analyze | apply quiet_ret]. }
  destruct context as [text |]; [| exact Hbuf].
  destruct (String.eqb text ""); [exact Hbuf | apply quiet_analyze].
Qed.

(** ** The commands, from the outside *)

(** A send that may be refused delivers its message or raises without
    delivering. *)
Lemma once_send_or_fail (refuse : outmsg -> option exn)
    (P : outmsg -> Prop) (msg : outmsg) :
  P msg ->
  once (fun m => P m /\ refuse m = None) (send_or_fail refuse msg).
Proof.
  intros HP w. unfold send_or_fail.
  destruct (refuse msg) eqn:Hmsg; cbn; [reflexivity |]. now exists msg.
Qed.

(** On a platform that refuses nothing the command with a fallible send is
    the command. *)
Lemma recommend_meme_on_accepting (env : Env) (c : Z) (name : string)
    (context : option string) (s : contexts) :
  recommend_meme_on (send_or_fail (fun _ => None))
    (analyze_conversation_mood env) env MemeRecommender_init c name context s
  = recommend_meme env c name context s.
Proof. reflexivity. Qed.

(** X10.  On a platform that may refuse messages, the manual command
    delivers at most one message, and a delivered message is an embed that
    carries a GIF, the notice that no meme was found, or the notice that
    something went wrong.  The command raises only when the platform refuses
    the failure notice itself, which the handler sends unguarded: the
    exception is then the platform's and nothing was delivered.  When the
    failure notice is accepted the command returns and delivers exactly one
    message. *)
Theorem manual_replies_once (refuse : outmsg -> option exn) (env : Env)
    (c : Z) (name : string) (context : option string) (s : contexts)
    (w : world) :
  let run :=
    recommend_meme_on (send_or_fail refuse) (analyze_conversation_mood env)
      env MemeRecommender_init c name context s w in
  (sent (snd run) = sent w
   \/ exists msg,
        sent (snd run) = (sent w ++ [msg])%list
        /\ is_manual_reply msg /\ refuse msg = None)
  /\ (forall e,
        fst run = Raise e ->
        refuse (SendText notice_failed) = Some e /\ sent (snd run) = sent w)
  /\ (refuse (SendText notice_failed) = None ->
      fst run = Ret tt
      /\ exists msg,
           sent (snd run) = (sent w ++ [msg])%list
           /\ is_manual_reply msg /\ refuse msg = None).
Proof.
  cbv zeta. unfold recommend_meme_on.
  match goal with
  | |- context [try_except ?b ?h w] => set (body := b); set (handler := h)
  end.
  assert (Hbody : once (fun m => is_manual_reply m /\ refuse m = None) body).
  { subst body.
    apply once_bind; [apply quiet_recommend_meme_analysis | intros analysis].
    apply once_bind; [apply quiet_lift | intros sq].
    apply once_bind; [apply quiet_get_recommended_gif | intros gif_url].
    destruct (Py.truthy gif_url) eqn:Htruthy.
    - repeat (apply once_bind; [apply quiet_lift | intros ?]).
      apply once_send_or_fail. left. eexists.
      split; [reflexivity |]. now repeat split.
    - apply once_send_or_fail. right; left. reflexivity. }
  assert (Hnotice : is_manual_reply (SendText notice_failed))
    by (right; right; reflexivity).
  unfold try_except. specialize (Hbody w).
  destruct (body w) as [[[] | e] w1].
  - cbn [fst snd]. destruct Hbody as [msg [Hs HP]].
    split; [right; now exists msg |].
    split; [discriminate |]. intros _. split; [reflexivity | now exists msg].
  - subst handler. cbn beta.
    unfold mbind, M_bind, bind, logging_error, send_or_fail.
    destruct (refuse (SendText notice_failed)) as [e' |] eqn:Hrefuse.
    + cbn [fst snd raise sent]. split; [left; exact Hbody |].
      split; [| discriminate].
      intros e0 He0. injection He0 as <-. now split.
    + cbn [fst snd send sent]. rewrite Hbody.
      split; [right; now exists (SendText notice_failed) |].
      split; [discriminate |].
      intros _. split; [reflexivity |]. now exists (SendText notice_failed).
Qed.

(** A platform that refuses embeds: the failure notice is what the user
    gets.  A platform that refuses everything: the command raises. *)
Example manual_on_refusing_platform :
  let no_embeds (m : outmsg) :=
    match m with
    | SendEmbed _ => Some (ServiceError "Forbidden")
    | SendText _ => None
    end in
  recommend_meme_on (send_or_fail no_embeds)
    (analyze_conversation_mood env_no_credentials) env_no_credentials
    MemeRecommender_init 1 "ann" (Some "what a win") ∅ world0
  = (Ret tt,
     World (fun _ => 0%nat)
           [LogError "Meme recommendation failed" (ServiceError "Forbidden")]
           [SendText notice_failed])
  /\ fst (recommend_meme_on
            (send_or_fail (fun _ => Some (ServiceError "Forbidden")))
            (analyze_conversation_mood env_no_credentials) env_no_credentials
            MemeRecommender_init 1 "ann" (Some "what a win") ∅ world0)
     = Raise (ServiceError "Forbidden").
Proof. split; reflexivity. Qed.

(** The automatic path returns, having sent nothing or one post. *)
Lemma auto_recommend_meme_returns (env : Env) (c : Z) (s : contexts)
    (w : world) :
  exists w',
    auto_recommend_meme env c s w = (Ret tt, w')
    /\ (sent w' = sent w
        \/ exists msg, sent w' = (sent w ++ [msg])%list /\ is_auto_post msg).
Proof.
  unfold auto_recommend_meme.
  match goal with
  | |- context [try_except ?b ?h w] => set (body := b); set (handler := h)
  end.
  assert (Hbody : at_most_once is_auto_post body).
  { subst body. destruct (s !! c) as [buf |];
      [| apply at_most_once_of_quiet, quiet_ret].
    apply at_most_once_bind; [apply quiet_analyze | intros analysis].
    apply (reply_steps_at_most_once env is_auto_post
             (fun mood_title sq conf gif_url =>
                SendEmbed
                  (Embed "Meme Recommendation"
                         ("**Mood detected:** " ++ mood_title ++ nl
                          ++ "**Context:** " ++ fmt env sq)
                         0x00ff88 gif_url
                         ("Confidence: " ++ fmt env conf
                          ++ " | Auto-detected")))).
    intros title sq conf gif_url Htruthy. eexists.
    split; [reflexivity |]. now repeat split. }
  unfold try_except. specialize (Hbody w).
  destruct (body w) as [[[] | e] w1] eqn:Hrun.
  - exists w1. split; [reflexivity | exact Hbody].
  - eexists. subst handler. cbn. split; [reflexivity |].
    left; exact Hbody.
Qed.

(** X11.  The automatic path never raises.  It sends nothing or exactly one
    embed that carries a GIF; on a channel without an entry it does nothing
    at all: no analysis, no request, no log record. *)
Theorem auto_posts_at_most_once (env : Env) (c : Z) (s : contexts)
    (w : world) :
  exists w',
    auto_recommend_meme env c s w = (Ret tt, w')
    /\ (sent w' = sent w
        \/ exists msg, sent w' = (sent w ++ [msg])%list /\ is_auto_post msg)
    /\ (s !! c = None -> w' = w).
Proof.
  destruct (auto_recommend_meme_returns env c s w) as [w' [Hrun Hsent]].
  exists w'. split; [exact Hrun |]. split; [exact Hsent |].
  intros Hnone. unfold auto_recommend_meme, try_except in Hrun.
  rewrite Hnone in Hrun. cbn in Hrun. congruence.
Qed.

(** X12.  When the analysis the manual command obtained has no search
    query to read (it is not a dict, or the key is missing), the user gets
    the failure notice and nothing else, and the exception is logged. *)
Theorem manual_reports_unusable_analysis (env : Env) (c : Z) (name : string)
    (context : option string) (s : contexts) (w w1 : world)
    (analysis : json) (e : exn) :
  recommend_meme_analysis (analyze_conversation_mood env) c context s w
    = (Ret analysis, w1) ->
  Py.getitem analysis "search_query" = Raise e ->
  recommend_meme env c name context s w
  = (Ret tt,
     World (rng w1)
           (log w1 ++ [LogError "Meme recommendation failed" e])
           (sent w1 ++ [SendText notice_failed])).
Proof.
  intros Hanalysis Hkey.
  unfold recommend_meme, recommend_meme_with, try_except, mbind, M_bind, bind.
  rewrite Hanalysis, Hkey. reflexivity.
Qed.

Lemma manual_reports_unusable_analysis_witness :
  recommend_meme_analysis (analyze_conversation_mood env_empty_object_reply)
    1 (Some "hello") ∅ world0
  = (Ret (JObj []), world0)
  /\ Py.getitem (JObj []) "search_query" = Raise KeyError
  /\ recommend_meme env_empty_object_reply 1 "ann" (Some "hello") ∅ world0
     = (Ret tt,
        World (rng world0)
              (log world0 ++ [LogError "Meme recommendation failed" KeyError])
              (sent world0 ++ [SendText notice_failed])).
Proof.
  split; [reflexivity |]. split; [reflexivity |].
  apply (manual_reports_unusable_analysis env_empty_object_reply 1 "ann"
           (Some "hello") ∅ world0 world0 (JObj []) KeyError);
    reflexivity.
Defined.

(** X13.  When the selection gives the manual command a value that counts
    as false ([None], an empty string), the user is told that no meme was
    found; the automatic path, on the same analysis and selection, posts
    nothing. *)
Theorem no_meme_notice_only_on_request (env : Env) (c : Z) (name : string)
    (buf : list Message) (s : contexts) (w w1 w2 : world)
    (analysis search_query gif_url : json) :
  s !! c = Some buf ->
  analyze_conversation_mood env (map content (Py.last_n 5 buf)) w
    = (Ret analysis, w1) ->
  Py.getitem analysis "search_query" = Ret search_query ->
  get_recommended_gif env MemeRecommender_init search_query w1
    = (Ret gif_url, w2) ->
  Py.truthy gif_url = false ->
  recommend_meme env c name None s w
  = (Ret tt, World (rng w2) (log w2) (sent w2 ++ [SendText notice_no_meme]))
  /\ auto_recommend_meme env c s w = (Ret tt, w2).
Proof.
  intros Hbuf Hanalysis Hkey Hgif Htruthy. split.
  - unfold recommend_meme, recommend_meme_with, recommend_meme_analysis,
      try_except, mbind, M_bind, bind.
    rewrite Hbuf, Hanalysis, Hkey. cbn [lift]. rewrite Hgif, Htruthy.
    reflexivity.
  - unfold auto_recommend_meme, try_except, mbind, M_bind, bind.
    rewrite Hbuf, Hanalysis, Hkey. cbn [lift]. rewrite Hgif, Htruthy.
    reflexivity.
Qed.

Lemma no_meme_notice_only_on_request_witness :
  let env := env_search_reply (JObj [("results", JArr [JObj []])]) in
  let m := {| author := "bob"; content := "hello";
              timestamp := S754_zero false |} in
  let s : contexts := {[ 1 := [m] ]} in
  s !! 1 = Some [m]
  /\ analyze_conversation_mood env (map content (Py.last_n 5 [m])) world0
     = (Ret neutral_analysis, world0)
  /\ Py.getitem neutral_analysis "search_query" = Ret (JStr "reaction gif")
  /\ get_recommended_gif env MemeRecommender_init (JStr "reaction gif") world0
     = (Ret JNull, drawn world0)
  /\ Py.truthy JNull = false
  /\ (recommend_meme env 1 "ann" None s world0
      = (Ret tt,
         World (rng (drawn world0)) (log (drawn world0))
               (sent (drawn world0) ++ [SendText notice_no_meme]))
      /\ auto_recommend_meme env 1 s world0 = (Ret tt, drawn world0)).
Proof.
  cbv zeta.
  split; [reflexivity |]. split; [reflexivity |]. split; [reflexivity |].
  split; [reflexivity |]. split; [reflexivity |].
  apply (no_meme_notice_only_on_request
           (env_search_reply (JObj [("results", JArr [JObj []])])) 1 "ann"
           [ {| author := "bob"; content := "hello";
                timestamp := S754_zero false |} ]
           {[ 1 := [ {| author := "bob"; content := "hello";
                        timestamp := S754_zero false |} ] ]}
           world0 world0 (drawn world0)
           neutral_analysis (JStr "reaction gif") JNull);
    reflexivity.
Defined.

(** ** The selection when the service fails or answers well *)

(** X14.  With a credential set and a non-empty fallback list, a request
    that fails ends in the fallback list: a network error and a body that
    cannot be decoded are logged once and answered by a fallback URL, and an
    answer with a status other than 200 is answered by a fallback URL
    without any log record. *)
Theorem selection_survives_failure (env : Env) (self : MemeRecommender)
    (q : json) (key : string) (w : world) :
  fallback_gifs self <> [] ->
  TENOR_API_KEY env = Some key ->
  key <> "" ->
  (forall e,
     session_get env (tenor_base_url self) (tenor_params q key) = HttpError e ->
     exists url,
       In url (fallback_gifs self)
       /\ get_recommended_gif env self q w
          = (Ret (JStr url), drawn (logged w "Error fetching GIF" e)))
  /\ (forall e,
        session_get env (tenor_base_url self) (tenor_params q key)
          = HttpResponse 200 (Raise e) ->
        exists url,
          In url (fallback_gifs self)
          /\ get_recommended_gif env self q w
             = (Ret (JStr url), drawn (logged w "Error fetching GIF" e)))
  /\ (forall status body,
        session_get env (tenor_base_url self) (tenor_params q key)
          = HttpResponse status body ->
        status <> 200 ->
        exists url,
          In url (fallback_gifs self)
          /\ get_recommended_gif env self q w = (Ret (JStr url), drawn w)).
Proof.
  intros Hgifs Hkey Hne.
  rewrite (get_recommended_gif_with_key env self q key w Hkey Hne).
  unfold try_except. repeat split.
  - intros e Hget. rewrite Hget. unfold raise.
    destruct (choose_fallback_ok self (logged w "Error fetching GIF" e) Hgifs)
      as [url [Hin Hrun]].
    exists url. split; [exact Hin |]. exact Hrun.
  - intros e Hget. rewrite Hget.
    destruct (choose_fallback_ok self (logged w "Error fetching GIF" e) Hgifs)
      as [url [Hin Hrun]].
    exists url. split; [exact Hin |]. exact Hrun.
  - intros status body Hget Hstatus. rewrite Hget.
    unfold gif_from_response. apply Z.eqb_neq in Hstatus. rewrite Hstatus.
    destruct (choose_fallback_ok self w Hgifs) as [url [Hin Hrun]].
    exists url. split; [exact Hin |].
    unfold mbind, M_bind, bind. cbn [ret]. now rewrite Hrun.
Qed.

Lemma selection_survives_failure_witness :
  let env := {| GEMINI_API_KEY := None;
                TENOR_API_KEY := Some "t-key";
                json_loads := loads_empty_object;
                generate_content := fun _ => Raise (ServiceError "reasoning service");
                session_get := fun _ _ => HttpResponse 503 (Ret JNull);
                py_str := fun _ => "?" |} in
  fallback_gifs MemeRecommender_init <> []
  /\ TENOR_API_KEY env = Some "t-key"
  /\ "t-key" <> ""
  /\ exists url,
       In url (fallback_gifs MemeRecommender_init)
       /\ get_recommended_gif env MemeRecommender_init (JStr "q") world0
          = (Ret (JStr url), drawn world0).
Proof.
  cbv zeta.
  split; [discriminate |]. split; [reflexivity |]. split; [discriminate |].
  refine (proj2 (proj2
    (selection_survives_failure
       {| GEMINI_API_KEY := None;
          TENOR_API_KEY := Some "t-key";
          json_loads := loads_empty_object;
          generate_content := fun _ => Raise (ServiceError "reasoning service");
          session_get := fun _ _ => HttpResponse 503 (Ret JNull);
          py_str := fun _ => "?" |}
       MemeRecommender_init (JStr "q") "t-key" world0 _ eq_refl _))
    503 (Ret JNull) eq_refl _); discriminate.
Defined.

(** X15.  When the service answers 200 with a non-empty list of results
    that all carry a url string, the selection is the url of one of the
    results: the fallback list is not used and nothing is logged. *)
Theorem selection_from_results (env : Env) (self : MemeRecommender)
    (q : json) (key : string) (fields : list (string * json))
    (items : list json) (w : world) :
  TENOR_API_KEY env = Some key ->
  key <> "" ->
  session_get env (tenor_base_url self) (tenor_params q key)
    = HttpResponse 200 (Ret (JObj fields)) ->
  Py.lookup "results" fields = Some (JArr items) ->
  items <> [] ->
  (forall gif, In gif items -> exists u, url_of gif = Ret (JStr u)) ->
  exists gif u,
    In gif items
    /\ url_of gif = Ret (JStr u)
    /\ get_recommended_gif env self q w = (Ret (JStr u), drawn w).
Proof.
  intros Hkey Hne Hget Hres Hitems Hurls.
  rewrite (get_recommended_gif_with_key env self q key w Hkey Hne).
  unfold try_except. rewrite Hget.
  destruct items as [| g items]; [congruence |].
  set (gif := nth (rng w 0%nat mod length (g :: items)) (g :: items) g).
  assert (Hin : In gif (g :: items)).
  { subst gif. apply nth_In. apply Nat.mod_upper_bound. discriminate. }
  destruct (Hurls gif Hin) as [u Hu].
  exists gif, u. split; [exact Hin |]. split; [exact Hu |].
  unfold gif_from_response, mbind, M_bind, bind, lift.
  cbn [Z.eqb Pos.eqb Py.get Py.getitem]. rewrite Hres.
  cbn [Py.truthy Py.len Py.choice ret].
  unfold random_choice, mbind, M_bind, bind, randbelow, ret.
  assert (Hpos : (0 <? Z.of_nat (length (g :: items))) = true)
    by (apply Z.ltb_lt; cbn [length]; lia).
  rewrite Hpos. cbn beta iota. cbn [rng]. fold gif. unfold url_of in Hu.
  destruct (Py.get gif "media_formats" (JObj [])) as [mf | e];
    [| discriminate Hu].
  destruct (Py.get mf "gif" (JObj [])) as [gf | e]; [| discriminate Hu].
  rewrite Hu. reflexivity.
Qed.

Lemma selection_from_results_witness :
  let gif := JObj [("media_formats",
                    JObj [("gif", JObj [("url", JStr "https://media.tenor.com/abc.gif")])])] in
  let env := env_search_reply (JObj [("results", JArr [gif])]) in
  TENOR_API_KEY env = Some "t-key"
  /\ "t-key" <> ""
  /\ [gif] <> []
  /\ exists g u,
       In g [gif]
       /\ url_of g = Ret (JStr u)
       /\ get_recommended_gif env MemeRecommender_init (JStr "q") world0
          = (Ret (JStr u), drawn world0).
Proof.
  cbv zeta.
  split; [reflexivity |]. split; [discriminate |]. split; [discriminate |].
  apply (selection_from_results
           (env_search_reply
              (JObj [("results",
                      JArr [JObj [("media_formats",
                                   JObj [("gif", JObj [("url", JStr "https://media.tenor.com/abc.gif")])])]])]))
           MemeRecommender_init (JStr "q") "t-key"
           [("results",
             JArr [JObj [("media_formats",
                          JObj [("gif", JObj [("url", JStr "https://media.tenor.com/abc.gif")])])]])]
           [JObj [("media_formats",
                   JObj [("gif", JObj [("url", JStr "https://media.tenor.com/abc.gif")])])]]
           world0);
    try reflexivity; try discriminate.
  intros g [<- | []]. now exists "https://media.tenor.com/abc.gif".
Defined.

(** ** The message handler *)

(** X16.  The handler ignores the bot's own messages altogether.  For any
    other message it records the message before the commands run, so the
    dict the commands see has the message as the last entry of its channel;
    an exception of the command dispatch is not caught; and when the
    dispatch returns, the handler returns the dict the dispatch left,
    having added at most one automatic post -- none when the draw says no. *)
Theorem handler_records_then_dispatches (env : Env)
    (process_commands : message -> contexts -> M contexts)
    (msg : message) (now : spec_float) (auto : bool) (s : contexts)
    (w : world) :
  let updated :=
    update_conversation_context (msg_channel msg) (msg_display_name msg)
                                (msg_content msg) now s in
  (msg_is_self msg = true ->
   on_message env process_commands msg now auto s w = (Ret s, w))
  /\ (msg_is_self msg = false ->
      (exists buf,
         updated !! msg_channel msg = Some buf
         /\ last buf = Some {| author := msg_display_name msg;
                               content := msg_content msg;
                               timestamp := now |})
      /\ (forall e w1,
            process_commands msg updated w = (Raise e, w1) ->
            on_message env process_commands msg now auto s w = (Raise e, w1))
      /\ (forall s2 w2,
            process_commands msg updated w = (Ret s2, w2) ->
            exists w',
              on_message env process_commands msg now auto s w = (Ret s2, w')
              /\ (auto = false -> w' = w2)
              /\ (sent w' = sent w2
                  \/ exists post,
                       auto = true
                       /\ sent w' = (sent w2 ++ [post])%list
                       /\ is_auto_post post))).
Proof.
  intros updated. unfold on_message. split.
  - intros Hself. now rewrite Hself.
  - intros Hself. rewrite Hself. fold updated. split; [| split].
    + subst updated. eexists. split; [apply update_lookup_eq |].
      unfold MAX_CONTEXT_MESSAGES. rewrite last_n_snoc by lia.
      apply last_snoc.
    + intros e w1 Hpc. unfold mbind, M_bind, bind. now rewrite Hpc.
    + intros s2 w2 Hpc. unfold mbind, M_bind, bind. rewrite Hpc.
      destruct auto.
      * destruct (auto_recommend_meme_returns env (msg_channel msg) s2 w2)
          as [w' [Hrun Hsent]].
        exists w'. rewrite Hrun. split; [reflexivity |].
        split; [discriminate |].
        destruct Hsent as [Hs | [post [Hs Hp]]]; [now left |].
        right. now exists post.
      * exists w2. split; [reflexivity |]. split; [reflexivity | now left].
Qed.
